(** * Planner: connection registry, dispatch endpoint and OAuth callback

    A shallow embedding of the TypeScript/JavaScript sources of the planner
    repository:

    - [Composio]: the [ComposioService] class (the in-process connection
      registry: connect, hasUserConnection, refresh, remove, summary);
    - [Server]: the Express server (entity mapping, connection status check
      and the [/api/ai/send-message] handler);
    - [OAuthCallback]: the [handleOAuthCallback] function of the React
      component.

    Conventions.  A JavaScript string is the list of its UTF-16 code units.
    Numbers that hold millisecond timestamps and second counts are integers
    ([Z]).  [Date.now()] is an effect: the n-th evaluation of [Date.now()]
    returns [clock n], for an arbitrary [clock]; nothing is assumed about the
    clock unless a statement says so.  Calls that leave the process (the
    tool-connector platform, the LLM, the OAuth services) are answered by
    arbitrary functions, which return a value or throw.  Console output is
    recorded for the callback page only. *)

From Stdlib Require Import ZArith NArith Ascii String DecimalString.
From stdpp Require Import gmap list strings.

Local Open Scope Z_scope.

(** ** JavaScript strings *)

Abbreviation JsString := (list N).

(** The code units of a literal (its characters are below 256). *)
Definition js (s : string) : JsString :=
  map N_of_ascii (list_ascii_of_string s).

(** [`${n}`] for an integer [n]: its decimal representation. *)
Definition js_of_int (n : Z) : JsString :=
  js (NilZero.string_of_int (Z.to_int n)).

Arguments js : simpl never.
Arguments js_of_int : simpl never.

(** [!s] for a string: only the empty string is falsy. *)
Definition falsy_string (s : JsString) : bool :=
  match s with [] => true | _ => false end.

(** [!s] for an optional string ([undefined] is falsy as well). *)
Definition falsy_opt_string (s : option JsString) : bool :=
  match s with None => true | Some s => falsy_string s end.

(** ** Exceptions *)

(** What a [throw] or a rejected promise carries: an [Error] object with
    its message, [null] or [undefined] ([Nullish], with which of the two),
    or some other value (one without a [message] property). *)
Inductive Thrown :=
| JsError (message : JsString)
| NotAnError
| Nullish (undefined : bool).

Inductive Outcome (A : Type) := Returns (a : A) | Throws (t : Thrown).
Arguments Returns {A} a.
Arguments Throws {A} t.

(** [error instanceof Error ? error.message : 'Unknown error']. *)
Definition thrown_text (t : Thrown) : JsString :=
  match t with JsError m => m | _ => js "Unknown error" end.

(** The [TypeError] thrown by reading a property of [null] or [undefined];
    the text is the one of V8, the engine of Node. *)
Definition cannot_read_message (undefined : bool) : Thrown :=
  JsError (js "Cannot read properties of "
           ++ (if undefined then js "undefined" else js "null")
           ++ js " (reading 'message')").

(** [error.message]: the message of an [Error], [undefined] for another
    value, and a [TypeError] for [null] and [undefined]. *)
Definition error_message (t : Thrown) : Outcome (option JsString) :=
  match t with
  | JsError m => Returns (Some m)
  | NotAnError => Returns None
  | Nullish u => Throws (cannot_read_message u)
  end.

(** ** The connection registry ([ComposioService]) *)

Module Composio.

Inductive Status := active | expired | revoked.

#[global] Instance Status_eq_dec : EqDecision Status.
Proof. solve_decision. Defined.

Record UserConnection := mkUserConnection {
  connectionId : JsString;
  userEmail : JsString;
  accessToken : JsString;
  refreshToken : option JsString;
  expiresAt : Z;
  status : Status
}.

Definition with_expiresAt (c : UserConnection) (t : Z) : UserConnection :=
  mkUserConnection (connectionId c) (userEmail c) (accessToken c)
                   (refreshToken c) t (status c).

Definition with_status (c : UserConnection) (s : Status) : UserConnection :=
  mkUserConnection (connectionId c) (userEmail c) (accessToken c)
                   (refreshToken c) (expiresAt c) s.

(** The state of a service object: the private [userConnections] map and
    the number of [Date.now()] evaluations made so far. *)
Record World := mkWorld {
  userConnections : gmap JsString UserConnection;
  ticks : nat
}.

Definition init : World := mkWorld ∅ 0.

Record Summary := mkSummary { total : nat; n_active : nat; n_expired : nat }.

(** A method is a state transformer that returns a value. *)
Definition M (A : Type) : Type := World -> A * World.

#[global] Instance M_mret : MRet M := fun A a w => (a, w).

#[global] Instance M_bind : MBind M :=
  fun A B k m w => let (a, w') := m w in k a w'.

Definition get_connection (email : JsString) : M (option UserConnection) :=
  fun w => (userConnections w !! email, w).

Definition set_connection (email : JsString) (c : UserConnection) : M unit :=
  fun w => (tt, mkWorld (<[email := c]> (userConnections w)) (ticks w)).

(** [Array.from(this.userConnections.values())].  A JavaScript [Map] lists
    its values in insertion order, which a [gmap] does not record: this list
    holds the records of the map in the order of [map_to_list], which can
    differ.  The order shows in two places: in which clock reading
    [getUserConnectionsSummary] compares a record with, and in the order of
    the array of [getConnections].  The statements about the two methods
    speak of counts and of the records listed, never of their order. *)
Definition connection_values : M (list UserConnection) :=
  fun w => ((map_to_list (userConnections w)).*2, w).

(** [connections.filter(p)] for a predicate with effects. *)
Fixpoint filterM {A} (p : A -> M bool) (l : list A) : M (list A) :=
  match l with
  | [] => mret (M := M) []
  | x :: l' =>
      b ← p x;
      r ← filterM p l';
      mret (M := M) (if b : bool then x :: r else r)
  end.

Section Clock.

(** [clock n] is what the n-th evaluation of [Date.now()] returns. *)
Variable clock : nat -> Z.

Definition Date_now : M Z :=
  fun w => (clock (ticks w), mkWorld (userConnections w) (S (ticks w))).

(** [connectUserGoogleAccount(userEmail, accessToken, refreshToken?,
    expiresIn?)]; the body cannot throw, so the [catch] is dead. *)
Definition connectUserGoogleAccount (email token : JsString)
    (refresh : option JsString) (expiresIn : option Z) : M JsString :=
  t1 ← Date_now;
  let cid := js "conn_" ++ email ++ js "_" ++ js_of_int t1 in
  t2 ← Date_now;
  (* expiresIn ? Date.now() + expiresIn * 1000 : Date.now() + 3600 * 1000;
     undefined and 0 are falsy *)
  let exp := match expiresIn with
             | Some n => if n =? 0 then t2 + 3600 * 1000 else t2 + n * 1000
             | None => t2 + 3600 * 1000
             end in
  _ ← set_connection email
        (mkUserConnection cid email token refresh exp active);
  mret cid.

(** [getUserConnectionId]: [connection?.connectionId || null]. *)
Definition getUserConnectionId (email : JsString) : M (option JsString) :=
  c ← get_connection email;
  mret (match c with
       | Some c => if falsy_string (connectionId c) then None
                   else Some (connectionId c)
       | None => None
       end).

(** [hasUserConnection]:
    [connection?.status === 'active' && connection.expiresAt > Date.now()];
    the clock is read only when the left operand is true. *)
Definition hasUserConnection (email : JsString) : M bool :=
  c ← get_connection email;
  match c with
  | Some c =>
      if decide (status c = active)
      then now ← Date_now; mret (bool_decide (expiresAt c > now))
      else mret false
  | None => mret false
  end.

(** [refreshUserConnection]; nothing in the [try] block throws. *)
Definition refreshUserConnection (email : JsString) : M bool :=
  c ← get_connection email;
  match c with
  | None => mret false
  | Some c =>
      if falsy_opt_string (refreshToken c) then mret false
      else
        now ← Date_now;
        _ ← set_connection email (with_expiresAt c (now + 3600 * 1000));
        mret true
  end.

(** [removeUserConnection]; nothing in the [try] block throws. *)
Definition removeUserConnection (email : JsString) : M bool :=
  c ← get_connection email;
  match c with
  | None => mret false
  | Some c =>
      _ ← set_connection email (with_status c revoked);
      mret true
  end.

(** The two predicates of [getUserConnectionsSummary]; each evaluates
    [Date.now()] itself, and only for a record whose status is active. *)
Definition counts_active (c : UserConnection) : M bool :=
  if decide (status c = active)
  then now ← Date_now; mret (bool_decide (expiresAt c > now))
  else mret false.

Definition counts_expired (c : UserConnection) : M bool :=
  if decide (status c = active)
  then now ← Date_now; mret (bool_decide (expiresAt c <= now))
  else mret false.

(** [getUserConnectionsSummary]. *)
Definition getUserConnectionsSummary : M Summary :=
  connections ← connection_values;
  a ← filterM counts_active connections;
  e ← filterM counts_expired connections;
  mret (mkSummary (length connections) (length a) (length e)).

(** The calls a client can make on a service object, and the states they
    lead to from the state of a new object.  [Other n] stands for a call of
    one of the remaining methods ([addGoogleCalendarToolsForUser],
    [testConnection], [initiateGoogleCalendarConnection], [getConnections]):
    they leave the map as it is and read the clock some number [n] of
    times. *)
Inductive Call :=
| Connect (email token : JsString) (refresh : option JsString)
          (expiresIn : option Z)
| GetId (email : JsString)
| Has (email : JsString)
| Refresh (email : JsString)
| Remove (email : JsString)
| GetSummary
| Other (n : nat).

Definition exec (c : Call) (w : World) : World :=
  match c with
  | Connect email token refresh expiresIn =>
      (connectUserGoogleAccount email token refresh expiresIn w).2
  | GetId email => (getUserConnectionId email w).2
  | Has email => (hasUserConnection email w).2
  | Refresh email => (refreshUserConnection email w).2
  | Remove email => (removeUserConnection email w).2
  | GetSummary => (getUserConnectionsSummary w).2
  | Other n => mkWorld (userConnections w) (n + ticks w)
  end.

Definition run (cs : list Call) (w : World) : World :=
  foldl (fun w c => exec c w) w cs.

Inductive reachable : World -> Prop :=
| reachable_init : reachable init
| reachable_exec c w : reachable w -> reachable (exec c w).

(** The records of the registry that carry a given email. *)
Definition records_of (email : JsString) (w : World) : list UserConnection :=
  filter (fun c => userEmail c = email) (map_to_list (userConnections w)).*2.

End Clock.

(** *** Predicates on states and calls *)

(** Every record is stored under its own email, and no record has the
    status [expired] (no method assigns it). *)
Definition well_keyed (w : World) : Prop :=
  map_Forall (fun k c => userEmail c = k /\ status c <> expired)
             (userConnections w).

(** A call that connects the given email again. *)
Definition reconnects (email : JsString) (call : Call) : Prop :=
  match call with
  | Connect email' _ _ _ => email' = email
  | _ => False
  end.

(** The email has a record, and it is revoked. *)
Definition is_revoked (email : JsString) (w : World) : Prop :=
  exists c, userConnections w !! email = Some c /\ status c = revoked.

(** *** Sample clocks and states *)

Definition alice : JsString := js "a@b.com".

(** A clock that advances by one millisecond at each reading. *)
Definition ms_clock (n : nat) : Z := Z.of_nat n.

(** After one connect with a refresh token and [expires_in = 7200]. *)
Definition two_hour_world : World :=
  exec ms_clock (Connect alice (js "t1") (Some (js "r1")) (Some 7200)) init.

(** The same, revoked afterwards. *)
Definition revoked_world : World := exec ms_clock (Remove alice) two_hour_world.

(** A clock that reads 0 twice, then 999, then 1000. *)
Definition ticking_clock (n : nat) : Z :=
  match n with
  | 2%nat => 999
  | 3%nat => 1000
  | _ => 0
  end.

(** After one connect (readings 0 and 0) with [expires_in = 1]: expiry
    1000. *)
Definition one_second_world : World :=
  exec ticking_clock (Connect alice (js "t1") None (Some 1)) init.

(** A clock that stands still. *)
Definition steady_clock (n : nat) : Z := 5.

(** Two records, one active and one revoked. *)
Definition mixed_world : World :=
  run steady_clock
      [Connect alice (js "t1") None None;
       Connect (js "c@d.org") (js "t2") None None;
       Remove (js "c@d.org")] init.

End Composio.

(** ** The API server *)

Module Server.

(** *** Entity mapping *)

(** The code units matched by [[a-zA-Z0-9]]. *)
Definition is_alnum (u : N) : bool :=
  ((48 <=? u) && (u <=? 57) || (65 <=? u) && (u <=? 90)
   || (97 <=? u) && (u <=? 122))%N.

Definition is_upper (u : N) : bool := ((65 <=? u) && (u <=? 90))%N.

(** [s.replace(/[^a-zA-Z0-9]/g, '_')]: the pattern has no [u] flag, so it is
    matched against each code unit; 95 is the underscore. *)
Definition replace_non_alnum (s : JsString) : JsString :=
  map (fun u => if is_alnum u then u else 95%N) s.

(** [s.toLowerCase()] on the code units below 128: [A]-[Z] go to [a]-[z],
    the others stay.  Case mapping beyond ASCII is not modelled (larger
    units are left as they are); [entityIdOf] applies the function to the
    result of the replacement only, which has no such unit. *)
Definition toLowerCase (s : JsString) : JsString :=
  map (fun u => if is_upper u then (u + 32)%N else u) s.

(** The entity id of [setupUserConnectionIfNotExists]:
    [userEmail.replace(/[^a-zA-Z0-9]/g, '_').toLowerCase()]. *)
Definition entityIdOf (userEmail : JsString) : JsString :=
  toLowerCase (replace_non_alnum userEmail).

(** *** State and platform *)

Inductive Status := active | pending | not_found | error.

#[global] Instance Status_eq_dec : EqDecision Status.
Proof. solve_decision. Defined.

(** The values of the [userConnections] map. *)
Record ConnectionData := mkConnectionData {
  entityId : JsString;
  connectionId : JsString;
  redirectUrl : option JsString;
  status : Status;
  connectedAt : option JsString;
  createdAt : option JsString
}.

Definition with_status (d : ConnectionData) (s : Status) : ConnectionData :=
  mkConnectionData (entityId d) (connectionId d) (redirectUrl d) s
                   (connectedAt d) (createdAt d).

(** What [checkConnectionStatus] returns. *)
Record ConnectionStatus := mkConnectionStatus {
  cs_status : Status;
  cs_message : option JsString;
  toolsAvailable : option nat
}.

(** The result of [generateText]; tool calls and results are kept as JSON
    text. *)
Record LlmOutput := mkLlmOutput {
  text : JsString;
  toolCalls : JsString;
  toolResults : JsString
}.

(** The [response] object of a chat reply. *)
Record Reply := mkReply {
  message : JsString;
  needsConnection : option bool;
  reply_redirectUrl : option JsString;
  reply_toolCalls : option JsString;
  reply_toolResults : option JsString;
  userEmail : JsString
}.

Inductive Response :=
| Failure (code : Z) (error_text : JsString) (timestamp : JsString)
    (* res.status(code).json({ success: false, error, timestamp }) *)
| Success (response : Reply) (timestamp : JsString).
    (* res.json({ success: true, response, timestamp }) *)

(** The module-level maps, and how many clock readings, requests to the
    tool-connector platform and [generateText] calls were made so far. *)
Record World := mkWorld {
  userConnections : gmap JsString ConnectionData;
  userEntities : gmap JsString JsString;
  ticks : nat;
  requests : nat;
  llmCalls : nat
}.

(** Everything outside the process: the n-th clock reading, the formatting
    of dates, the answer of the platform to its n-th request, the outcome of
    the n-th [generateText] call (with or without tools).  The prompt text is
    not modelled: the answers are arbitrary already. *)
Record Platform := mkPlatform {
  clock : nat -> Z;
  toISOString : Z -> JsString;
  getEntity : nat -> JsString -> Outcome unit;
  getConnection : nat -> JsString -> Outcome JsString;
  initiateConnection : nat -> JsString -> Outcome (JsString * option JsString);
  getTools : nat -> JsString -> Outcome (option (list JsString));
  generateText : nat -> bool -> Outcome LlmOutput
}.

(** A computation changes the state and returns or throws. *)
Definition M (A : Type) : Type := World -> Outcome A * World.

#[global] Instance M_mret : MRet M := fun A a w => (Returns a, w).

#[global] Instance M_bind : MBind M :=
  fun A B k m w =>
    match m w with
    | (Returns a, w') => k a w'
    | (Throws t, w') => (Throws t, w')
    end.

Definition throw {A} (t : Thrown) : M A := fun w => (Throws t, w).

Definition try_catch {A} (m : M A) (handler : Thrown -> M A) : M A :=
  fun w =>
    match m w with
    | (Returns a, w') => (Returns a, w')
    | (Throws t, w') => handler t w'
    end.

Definition get_connection (email : JsString) : M (option ConnectionData) :=
  fun w => (Returns (userConnections w !! email), w).

Definition get_entity (email : JsString) : M (option JsString) :=
  fun w => (Returns (userEntities w !! email), w).

Definition set_connection (email : JsString) (d : ConnectionData) : M unit :=
  fun w => (Returns tt,
            mkWorld (<[email := d]> (userConnections w)) (userEntities w)
                    (ticks w) (requests w) (llmCalls w)).

Definition set_entity (email entity : JsString) : M unit :=
  fun w => (Returns tt,
            mkWorld (userConnections w) (<[email := entity]> (userEntities w))
                    (ticks w) (requests w) (llmCalls w)).

Section Handlers.

Variable P : Platform.

(** [new Date().toISOString()]. *)
Definition timestamp_now : M JsString :=
  fun w => (Returns (toISOString P (clock P (ticks w))),
            mkWorld (userConnections w) (userEntities w) (S (ticks w))
                    (requests w) (llmCalls w)).

(** A request to the platform: [ask n] is its outcome when it is the n-th. *)
Definition request {A} (ask : nat -> Outcome A) : M A :=
  fun w => (ask (requests w),
            mkWorld (userConnections w) (userEntities w) (ticks w)
                    (S (requests w)) (llmCalls w)).

(** One [generateText] call. *)
Definition llm (with_tools : bool) : M LlmOutput :=
  fun w => (generateText P (llmCalls w) with_tools,
            mkWorld (userConnections w) (userEntities w) (ticks w)
                    (requests w) (S (llmCalls w))).

(** [setupUserConnectionIfNotExists]; it returns the id of the connection
    found or initiated.  The outer [catch] rethrows. *)
Definition setupUserConnectionIfNotExists (email : JsString) : M JsString :=
  let entity := entityIdOf email in
  _ ← set_entity email entity;
  _ ← request (fun n => getEntity P n entity);
  try_catch
    (connection ← request (fun n => getConnection P n entity);
     t ← timestamp_now;
     _ ← set_connection email
           (mkConnectionData entity connection None active (Some t) None);
     mret connection)
    (fun _ =>
     newConnection ← request (fun n => initiateConnection P n entity);
     t ← timestamp_now;
     _ ← set_connection email
           (mkConnectionData entity newConnection.1 newConnection.2 pending
                             None (Some t));
     mret newConnection.1).

(** [getUserTools]; the [catch] rethrows. *)
Definition getUserTools (email : JsString) : M (option (list JsString)) :=
  entity ← get_entity email;
  match entity with
  | Some e =>
      if falsy_string e
      then throw (JsError (js "No entity found for user: " ++ email))
      else request (fun n => getTools P n e)
  | None => throw (JsError (js "No entity found for user: " ++ email))
  end.

(** [tools && Object.keys(tools).length > 0]. *)
Definition has_tools (tools : option (list JsString)) : bool :=
  match tools with
  | Some (_ :: _) => true
  | _ => false
  end.

(** [checkConnectionStatus]; what is thrown in the [try] block is turned
    into the status [error] with [error.message], and reading that message
    throws in its turn when the value thrown is [null] or [undefined]. *)
Definition checkConnectionStatus (email : JsString) : M ConnectionStatus :=
  try_catch
    (connectionData ← get_connection email;
     entity ← get_entity email;
     match connectionData, entity with
     | Some d, Some e =>
         if falsy_string e
         then mret (mkConnectionStatus not_found
                      (Some (js "No connection found")) None)
         else
           tools ← getUserTools email;
           if has_tools tools
           then
             _ ← set_connection email (with_status d active);
             mret (mkConnectionStatus active
                     (Some (js "Connection is active"))
                     (Some (length (default [] tools))))
           else mret (mkConnectionStatus pending
                        (Some (js "Connection pending authentication")) None)
     | _, _ => mret (mkConnectionStatus not_found
                       (Some (js "No connection found")) None)
     end)
    (fun t =>
     match error_message t with
     | Returns m => mret (mkConnectionStatus error m None)
     | Throws t' => throw t'
     end).

(** The messages of the replies that ask for a connection. *)
Definition connect_first_text : JsString :=
  js "Hi! To manage your Google Calendar with AI, I need to connect to your account first. Please use the "
  ++ [34%N] ++ js "Setup Connection" ++ [34%N]
  ++ js " button to authenticate with Google Calendar through Composio.".

Definition pending_text : JsString :=
  js "Hi! Your Google Calendar connection is pending. Please complete the authentication process using the provided link.".

Definition issue_text (status_message : option JsString) : JsString :=
  js "There's an issue with your Google Calendar connection: "
  ++ default (js "undefined") status_message
  ++ js ". Please try reconnecting.".

(** The handler of [POST /api/ai/send-message], for a body with the fields
    [message] and [userEmail] (strings when present). *)
Definition send_message (message email : option JsString) : M Response :=
  try_catch
    (if falsy_opt_string message
     then t ← timestamp_now; mret (Failure 400 (js "Message is required") t)
     else
       if falsy_opt_string email
       then
         t ← timestamp_now;
         mret (Failure 400
                 (js "User email is required for personalized calendar management")
                 t)
       else
           let email := default [] email in
           connectionStatus ← checkConnectionStatus email;
           match cs_status connectionStatus with
           | not_found =>
               t ← timestamp_now;
               mret (Success (mkReply connect_first_text (Some true) None
                                      None None email) t)
           | pending =>
               connectionData ← get_connection email;
               t ← timestamp_now;
               mret (Success (mkReply pending_text (Some true)
                                      (connectionData ≫= redirectUrl)
                                      None None email) t)
           | error =>
               t ← timestamp_now;
               mret (Success (mkReply
                                (issue_text (cs_message connectionStatus))
                                (Some true) None None None email) t)
           | active =>
               tools ← getUserTools email;
               output ← llm true;
               finalOutput ← llm false;
               t ← timestamp_now;
               mret (Success (mkReply (text finalOutput) None None
                                      (Some (toolCalls output))
                                      (Some (toolResults output)) email) t)
           end)
    (fun err => t ← timestamp_now; mret (Failure 500 (thrown_text err) t)).

End Handlers.

Definition init : World := mkWorld ∅ ∅ 0 0 0.

(** The code units of an entity id: digits, lower-case letters, underscore. *)
Definition is_entity_unit (u : N) : bool :=
  ((48 <=? u) && (u <=? 57) || (97 <=? u) && (u <=? 122) || (u =? 95))%N.

(** The text of the reply for a status that is not active. *)
Definition reconnect_text (s : ConnectionStatus) : JsString :=
  match cs_status s with
  | not_found => connect_first_text
  | pending => pending_text
  | _ => issue_text (cs_message s)
  end.

(** *** Samples *)

(** A platform that knows nobody: every request fails, the LLM answers. *)
Definition silent_platform : Platform :=
  mkPlatform (fun n => Z.of_nat n) js_of_int
             (fun _ _ => Throws (JsError (js "unreachable")))
             (fun _ _ => Throws (JsError (js "unreachable")))
             (fun _ _ => Throws (JsError (js "unreachable")))
             (fun _ _ => Throws (JsError (js "unreachable")))
             (fun _ _ => Returns (mkLlmOutput (js "ok") (js "[]") (js "[]"))).

End Server.

(** ** The OAuth callback page *)

Module OAuthCallback.

Inductive Status := processing | success | error.

#[global] Instance Status_eq_dec : EqDecision Status.
Proof. solve_decision. Defined.

Record CallbackState := mkCallbackState {
  status : Status;
  message : JsString;
  details : option JsString
}.

(** The payload of an [ADD_CHAT_MESSAGE] action. *)
Record ChatMessage := mkChatMessage {
  id : JsString;
  type : JsString;
  content : JsString;
  timestamp : JsString
}.

Inductive Level := log | warn | error_level.

(** What the handler has done so far: the arguments of its
    [setCallbackState] calls (oldest first), the chat messages dispatched,
    the console lines (level and first argument), the delay of the redirect
    scheduled with [setTimeout], and the number of clock readings. *)
Record Page := mkPage {
  shown : list CallbackState;
  chat : list ChatMessage;
  console : list (Level * JsString);
  redirectAfter : option Z;
  ticks : nat
}.

(** The page of a component just mounted ([useState]'s initial value). *)
Definition init : Page :=
  mkPage [mkCallbackState processing (js "Processing authentication...") None]
         [] [] None 0.

(** The services the handler calls.  [handleCallback] is
    [oauthService.handleCallback]: it returns the code and the state read
    from the URL, or [null], or throws.  The tokens returned by
    [exchangeCodeForTokens] are not used by the handler. *)
Record Services := mkServices {
  clock : nat -> Z;
  toISOString : Z -> JsString;
  handleCallback : JsString -> Outcome (option (JsString * JsString));
  exchangeCodeForTokens : JsString -> JsString -> Outcome unit;
  connectToServerIntegration : JsString -> Outcome unit
}.

Definition M (A : Type) : Type := Page -> Outcome A * Page.

#[global] Instance M_mret : MRet M := fun A a p => (Returns a, p).

#[global] Instance M_bind : MBind M :=
  fun A B k m p =>
    match m p with
    | (Returns a, p') => k a p'
    | (Throws t, p') => (Throws t, p')
    end.

Definition throw {A} (t : Thrown) : M A := fun p => (Throws t, p).

Definition try_catch {A} (m : M A) (handler : Thrown -> M A) : M A :=
  fun p =>
    match m p with
    | (Returns a, p') => (Returns a, p')
    | (Throws t, p') => handler t p'
    end.

(** The outcome of a call to a service. *)
Definition call {A} (o : Outcome A) : M A := fun p => (o, p).

Definition setCallbackState (s : CallbackState) : M unit :=
  fun p => (Returns tt,
            mkPage (shown p ++ [s]) (chat p) (console p) (redirectAfter p)
                   (ticks p)).

Definition dispatch_chat (m : ChatMessage) : M unit :=
  fun p => (Returns tt,
            mkPage (shown p) (chat p ++ [m]) (console p) (redirectAfter p)
                   (ticks p)).

Definition console_line (l : Level) (line : JsString) : M unit :=
  fun p => (Returns tt,
            mkPage (shown p) (chat p) (console p ++ [(l, line)])
                   (redirectAfter p) (ticks p)).

(** [setTimeout(() => { window.location.href = '/' }, delay)]. *)
Definition redirect_after (delay : Z) : M unit :=
  fun p => (Returns tt,
            mkPage (shown p) (chat p) (console p) (Some delay) (ticks p)).

Section Handler.

Variable S : Services.

Definition Date_now : M Z :=
  fun p => (Returns (clock S (ticks p)),
            mkPage (shown p) (chat p) (console p) (redirectAfter p)
                   (Datatypes.S (ticks p))).

Definition success_text : JsString :=
  [55356%N; 57225%N]
  ++ js " Perfect! Google Calendar is now connected with full editing permissions and AI integration. Your calendar events will sync automatically and I can now directly create, update, and manage events in your Google Calendar using natural language commands!".

(** [handleOAuthCallback], for the page at [currentUrl] and the email of
    the signed-in user, [state.user?.email]. *)
Definition handleOAuthCallback (currentUrl : JsString)
    (user_email : option JsString) : M unit :=
  try_catch
    (_ ← setCallbackState
          (mkCallbackState processing
             (js "Validating authorization code...") None);
     _ ← console_line log
          ([55357%N; 56589%N] ++ js " Processing OAuth callback:");
     callbackResult ← call (handleCallback S currentUrl);
     match callbackResult with
     | None => throw (JsError (js "Failed to process OAuth callback"))
     | Some (code, stateParam) =>
         _ ← setCallbackState
               (mkCallbackState processing
                  (js "Exchanging authorization code for access token...")
                  None);
         _ ← call (exchangeCodeForTokens S code stateParam);
         _ ← setCallbackState
               (mkCallbackState processing
                  (js "Setting up AI integration...") None);
         _ ← (if falsy_opt_string user_email then mret tt
              else
                try_catch
                  (_ ← call (connectToServerIntegration S
                               (default [] user_email));
                   console_line log
                     ([9989%N] ++ js " Connected to server integration"))
                  (fun _ =>
                   console_line warn
                     ([9888%N; 65039%N]
                      ++ js " Failed to connect to server integration:")));
         _ ← setCallbackState
               (mkCallbackState success (js "Authentication successful!")
                  (Some (js "Google Calendar is now connected with AI integration. Redirecting...")));
         t1 ← Date_now;
         t2 ← Date_now;
         _ ← dispatch_chat
               (mkChatMessage (js_of_int t1) (js "ai") success_text
                              (toISOString S t2));
         redirect_after 2000
     end)
    (fun err =>
     _ ← console_line error_level
          ([10060%N] ++ js " OAuth callback error:");
     _ ← setCallbackState
          (mkCallbackState error (js "Authentication failed")
             (Some (match err with
                    | JsError m => m
                    | _ => js "Unknown error occurred"
                    end)));
     t1 ← Date_now;
     t2 ← Date_now;
     _ ← dispatch_chat
          (mkChatMessage (js_of_int t1) (js "ai")
             ([10060%N] ++ js " Authentication failed: " ++ thrown_text err
              ++ js ". Please try connecting again.")
             (toISOString S t2));
     redirect_after 5000).

(** The state the page shows at the end. *)
Definition final_status (p : Page) : option Status := status <$> last (shown p).

End Handler.

(** *** Query strings *)

(** The text before and after the first occurrence of [c]. *)
Fixpoint split_at (c : N) (s : JsString) : option (JsString * JsString) :=
  match s with
  | [] => None
  | u :: s' =>
      if (u =? c)%N then Some ([], s')
      else (fun ab : JsString * JsString => (u :: ab.1, ab.2)) <$> split_at c s'
  end.

(** [s.split(c)]. *)
Fixpoint split_all (c : N) (s : JsString) : list JsString :=
  match s with
  | [] => [[]]
  | u :: s' =>
      if (u =? c)%N then [] :: split_all c s'
      else match split_all c s' with
           | part :: parts => (u :: part) :: parts
           | [] => [[u]]
           end
  end.

(** The text between the first [?] (63) and the [#] (35) after it. *)
Definition query_of (url : JsString) : JsString :=
  match split_at 63 url with
  | Some (_, q) => match split_at 35 q with Some (q', _) => q' | None => q end
  | None => []
  end.

(** The value of the first [name=value] among the parts between [&] (38). *)
Definition search_param (name url : JsString) : option JsString :=
  snd <$> head (filter (fun kv : JsString * JsString => kv.1 = name)
                  (map (fun part => default (part, []) (split_at 61 part))
                       (split_all 38 (query_of url)))).

(** Modelled from the spec: [oauthService.handleCallback], whose source is
    not among the files at hand.  The spec (4.1, 6) has it parse the [code]
    and [state] query parameters of the redirect URL and fail when either
    is absent; failing is returning [null] here, the case the handler tests
    for.  It serves in sample runs only: the statements about the handler
    hold for any [handleCallback]. *)
Definition parse_callback (url : JsString)
  : Outcome (option (JsString * JsString)) :=
  Returns (code ← search_param (js "code") url;
           state ← search_param (js "state") url;
           Some (code, state)).

(** *** Samples *)

(** A sample set of services: the query parser, a token exchange that
    succeeds, and the given bridge. *)
Definition sample_services (bridge : JsString -> Outcome unit) : Services :=
  mkServices (fun n => Z.of_nat n) js_of_int parse_callback
             (fun _ _ => Returns tt) bridge.

Definition failing_bridge (email : JsString) : Outcome unit :=
  Throws (JsError (js "Server integration unavailable")).

End OAuthCallback.

(** ** The remaining methods of [ComposioService] *)

Module ComposioTools.
Import Composio.

(** The private [GOOGLE_CALENDAR_TOOLS] array. *)
Definition GOOGLE_CALENDAR_TOOLS : list JsString :=
  [js "GOOGLECALENDAR_PATCH_EVENT";
   js "GOOGLECALENDAR_CALENDARS_UPDATE";
   js "GOOGLECALENDAR_CREATE_EVENT";
   js "GOOGLECALENDAR_DELETE_EVENT";
   js "GOOGLECALENDAR_EVENTS_INSTANCES";
   js "GOOGLECALENDAR_EVENTS_LIST";
   js "GOOGLECALENDAR_EVENTS_MOVE";
   js "GOOGLECALENDAR_FIND_EVENT";
   js "GOOGLECALENDAR_FREE_BUSY_QUERY";
   js "GOOGLECALENDAR_GET_CALENDAR";
   js "GOOGLECALENDAR_GET_CURRENT_DATE_TIME";
   js "GOOGLECALENDAR_LIST_CALENDARS";
   js "GOOGLECALENDAR_PATCH_CALENDAR";
   js "GOOGLECALENDAR_QUICK_ADD";
   js "GOOGLECALENDAR_REMOVE_ATTENDEE";
   js "GOOGLECALENDAR_UPDATE_EVENT"].

(** A [for ... of] loop that collects one value per element. *)
Fixpoint forM {A B} (f : A -> M B) (l : list A) : M (list B) :=
  match l with
  | [] => mret (M := M) []
  | x :: l' =>
      y ← f x;
      r ← forM f l';
      mret (M := M) (y :: r)
  end.

(** An element of the array that [getConnections] returns. *)
Record ConnectionInfo := mkConnectionInfo {
  info_id : JsString;
  info_userEmail : JsString;
  info_status : Status;
  info_expiresAt : JsString;
  hasRefreshToken : bool
}.

(** What [testConnection] resolves to; [test_ok] is true for the status
    ['success'] and false for ['error']. *)
Record TestResult := mkTestResult {
  test_ok : bool;
  test_message : JsString;
  test_timestamp : JsString
}.

(** [array.map(f)] for an [f] that may throw: the first exception ends it. *)
Fixpoint map_outcome {A B} (f : A -> Outcome B) (l : list A)
  : Outcome (list B) :=
  match l with
  | [] => Returns []
  | x :: l' =>
      match f x with
      | Throws t => Throws t
      | Returns y =>
          match map_outcome f l' with
          | Throws t => Throws t
          | Returns r => Returns (y :: r)
          end
      end
  end.

(** The email a call is about. *)
Definition target (call : Call) : option JsString :=
  match call with
  | Connect email _ _ _ | GetId email | Has email | Refresh email
  | Remove email => Some email
  | GetSummary | Other _ => None
  end.

(** The lifetime [connectUserGoogleAccount] gives a connection, in
    milliseconds: [expiresIn] seconds, or one hour when [expiresIn] is
    [undefined] or [0]. *)
Definition lifetime (expiresIn : option Z) : Z :=
  match expiresIn with
  | Some n => if n =? 0 then 3600 * 1000 else n * 1000
  | None => 3600 * 1000
  end.

(** Every record has an id of the form [conn_<email>_<time>]. *)
Definition ids_prefixed (w : World) : Prop :=
  map_Forall (fun k c => exists t, connectionId c
                                   = js "conn_" ++ k ++ js "_" ++ js_of_int t)
             (userConnections w).

(** A call that can make the connection of an email usable: a connect or
    a refresh for that email. *)
Definition revives (email : JsString) (call : Call) : Prop :=
  match call with
  | Connect email' _ _ _ | Refresh email' => email' = email
  | _ => False
  end.

(** The email has no usable connection at the next clock reading: no
    record, or one that is not active, or one whose expiry has come. *)
Definition unusable (clock : nat -> Z) (email : JsString) (w : World) : Prop :=
  match userConnections w !! email with
  | Some c => status c <> active \/ expiresAt c <= clock (ticks w)
  | None => True
  end.

(** A connection that expired at time 10, with a refresh token. *)
Definition expired_world : World :=
  mkWorld {[ alice := mkUserConnection (js "conn_a@b.com_0") alice (js "t1")
                        (Some (js "r1")) 10 active ]} 20.

Section Methods.

Variable clock : nat -> Z.

(** [new Date(t).toISOString()]: the text of a time value, or the
    [RangeError] that JavaScript throws for a time value that is not a
    valid date. *)
Variable toISOString : Z -> Outcome JsString.

(** The id made up for one tool in [addGoogleCalendarToolsForUser]. *)
Definition tool_id (email toolName : JsString) : M JsString :=
  now ← Date_now clock;
  mret (js "tool_" ++ Server.toLowerCase toolName ++ js "_" ++ email
        ++ js "_" ++ js_of_int now).

(** [addGoogleCalendarToolsForUser]: the value it resolves to, or the error
    it rejects with.  Nothing throws inside the loop, and the outer [catch]
    rethrows. *)
Definition addGoogleCalendarToolsForUser (email : JsString)
  : M (Outcome (list JsString)) :=
  has ← hasUserConnection clock email;
  if negb has
  then mret (Throws (JsError
               (js "No active Google Calendar connection for user: "
                ++ email)))
  else
    connectionId ← getUserConnectionId email;
    match connectionId with
    | None =>
        mret (Throws (JsError (js "No connection ID found for user: "
                               ++ email)))
    | Some _ =>
        toolIds ← forM (tool_id email) GOOGLE_CALENDAR_TOOLS;
        mret (Returns toolIds)
    end.

(** [testConnection]: building the result reads the clock for the
    timestamp; an exception there is caught and reported, with a timestamp
    taken anew. *)
Definition testConnection : M (Outcome TestResult) :=
  fun w =>
    let count := js_of_int (Z.of_nat (size (userConnections w))) in
    let (t1, w1) := Date_now clock w in
    match toISOString t1 with
    | Returns stamp =>
        (Returns (mkTestResult true
                    (js "Composio service is properly initialized and ready for connections. "
                     ++ count ++ js " user connections active.")
                    stamp), w1)
    | Throws err =>
        let (t2, w2) := Date_now clock w1 in
        match toISOString t2 with
        | Returns stamp =>
            (Returns (mkTestResult false
                        (match err with
                         | JsError m => m
                         | _ =>
                             js "Unknown error during connection test"
                         end)
                        stamp), w2)
        | Throws err2 => (Throws err2, w2)
        end
    end.

(** The summary of one record in [getConnections]. *)
Definition connection_info (c : UserConnection) : Outcome ConnectionInfo :=
  match toISOString (expiresAt c) with
  | Returns stamp =>
      Returns (mkConnectionInfo (connectionId c) (userEmail c) (status c)
                 stamp (negb (falsy_opt_string (refreshToken c))))
  | Throws t => Throws t
  end.

(** [getConnections]: an exception of the mapping is rethrown as an [Error]
    with the prefix "Failed to fetch connections: ". *)
Definition getConnections : M (Outcome (list ConnectionInfo)) :=
  connections ← connection_values;
  mret (match map_outcome connection_info connections with
        | Returns infos => Returns infos
        | Throws t =>
            Throws (JsError (js "Failed to fetch connections: "
                             ++ thrown_text t))
        end).

End Methods.

(** A stand-in for the formatting of dates in sample runs: the decimal
    text of the time value, and a [RangeError] beyond the range of dates
    (8.64e15 ms on either side of the epoch). *)
Definition sample_stamp (t : Z) : Outcome JsString :=
  if decide (Z.abs t <= 8640000000000000) then Returns (js_of_int t)
  else Throws (JsError (js "Invalid time value")).

End ComposioTools.

(** ** The other routes of the API server *)

Module ServerRoutes.
Import Server.

(** The body of a successful answer of [POST /api/composio/setup-connection];
    the fields read with [connectionData?.] are absent without a record. *)
Record SetupReply := mkSetupReply {
  setup_userEmail : JsString;
  setup_entityId : option JsString;
  setup_connectionId : option JsString;
  setup_redirectUrl : option JsString;
  setup_status : option Status;
  setup_message : JsString
}.

Inductive SetupResponse :=
| SetupFailure (code : Z) (error_text : JsString) (timestamp : JsString)
    (* res.status(code).json({ success: false, error, timestamp }) *)
| SetupSuccess (reply : SetupReply) (timestamp : JsString).
    (* res.json({ success: true, userEmail, ..., timestamp }) *)

(** The [testResult] object of [POST /api/composio/test-connection]. *)
Record TestReport := mkTestReport {
  report_message : JsString;
  report_userEmail : JsString;
  report_entityId : option JsString;
  report_connectionId : option JsString;
  report_connectionStatus : Status;
  report_toolsAvailable : nat;
  report_features : list (JsString * JsString);
  report_timestamp : JsString
}.

Inductive TestResponse :=
| TestRejected (code : Z) (error_text : JsString) (timestamp : JsString)
    (* res.status(code).json({ success: false, error, timestamp }) *)
| TestPassed (testResult : TestReport) (timestamp : JsString)
    (* res.json({ success: true, testResult, timestamp }) *)
| TestFailed (error_text : JsString) (userEmail : JsString)
             (connectionData : option ConnectionData)
             (connectionStatus : Status) (timestamp : JsString).
    (* res.json({ success: false, error, userEmail, connectionData,
                  connectionStatus, timestamp }) *)

(** The constant [features] object of a passed test. *)
Definition features : list (JsString * JsString) :=
  [(js "googleCalendarIntegration", js "active");
   (js "composioTools", js "available");
   (js "openaiIntegration", js "active");
   (js "userSpecificEntity", js "enabled")].

Section Routes.

Variable P : Platform.

(** The handler of [POST /api/composio/setup-connection], for a body with
    the field [userEmail] (a string when present). *)
Definition setup_connection (email : option JsString) : M SetupResponse :=
  try_catch
    (if falsy_opt_string email
     then
       t ← timestamp_now P;
       mret (SetupFailure 400 (js "userEmail is required") t)
     else
       let email := default [] email in
       _ ← setupUserConnectionIfNotExists P email;
       connectionData ← get_connection email;
       t ← timestamp_now P;
       mret (SetupSuccess
               (mkSetupReply email
                  (entityId <$> connectionData)
                  (connectionId <$> connectionData)
                  (connectionData ≫= redirectUrl)
                  (status <$> connectionData)
                  (if decide (status <$> connectionData = Some pending)
                   then js "Please complete Google Calendar authentication using the redirect URL"
                   else js "Google Calendar connection is active for "
                        ++ email))
               t))
    (fun err => t ← timestamp_now P; mret (SetupFailure 500 (thrown_text err) t)).

(** The handler of [POST /api/composio/test-connection]. *)
Definition test_connection (email : option JsString) : M TestResponse :=
  try_catch
    (if falsy_opt_string email
     then
       t ← timestamp_now P;
       mret (TestRejected 400
               (js "userEmail is required for connection test") t)
     else
       let email := default [] email in
       connectionStatus ← checkConnectionStatus P email;
       connectionData ← get_connection email;
       entity ← get_entity email;
       if decide (cs_status connectionStatus = active)
       then
         t1 ← timestamp_now P;
         t2 ← timestamp_now P;
         mret (TestPassed
                 (mkTestReport
                    (js "Connection test successful for " ++ email)
                    email entity (connectionId <$> connectionData)
                    (cs_status connectionStatus)
                    (default 0%nat (toolsAvailable connectionStatus))
                    features t1)
                 t2)
       else
         t ← timestamp_now P;
         mret (TestFailed
                 (js "Connection test failed for " ++ email ++ js ": "
                  ++ default (js "undefined") (cs_message connectionStatus))
                 email connectionData (cs_status connectionStatus) t))
    (fun err => t ← timestamp_now P; mret (TestRejected 500 (thrown_text err) t)).

(** The requests a client can send.  [CallRead n] stands for a request to
    one of the routes that only read the maps and the clock ([/],
    [/api/health], [/api/composio/connections], [/api/stats], the 404
    handler). *)
Inductive Call :=
| CallSetup (email : option JsString)
| CallSend (message email : option JsString)
| CallTest (email : option JsString)
| CallRead (n : nat).

Definition exec (c : Call) (w : World) : World :=
  match c with
  | CallSetup email => (setup_connection email w).2
  | CallSend message email => (send_message P message email w).2
  | CallTest email => (test_connection email w).2
  | CallRead n =>
      mkWorld (userConnections w) (userEntities w) (n + ticks w)
              (requests w) (llmCalls w)
  end.

Inductive reachable : World -> Prop :=
| reachable_init : reachable init
| reachable_exec c w : reachable w -> reachable (exec c w).

End Routes.

(** The maps agree: an entity is recorded for non-empty emails only and is
    the entity id of the email; a connection is recorded only for an email
    with an entity, names that entity, and is active or pending. *)
Definition consistent (w : World) : Prop :=
  map_Forall (fun email e => e = entityIdOf email /\ falsy_string email = false)
             (userEntities w) /\
  map_Forall (fun email d =>
                entityId d = entityIdOf email /\
                userEntities w !! email = Some (entityIdOf email) /\
                (status d = active \/ status d = pending))
             (userConnections w).

(** An email has a unit that the entity id replaces by an underscore. *)
Definition has_punctuation (email : JsString) : Prop :=
  Exists (fun u => is_alnum u = false /\ u <> 95%N) email.

(** *** Samples *)

(** A platform on which nobody has a connection yet: a new one is
    initiated for whoever asks, and no tools are bound. *)
Definition fresh_platform : Platform :=
  mkPlatform (fun n => Z.of_nat n) js_of_int
             (fun _ _ => Returns tt)
             (fun _ _ => Throws (JsError (js "No connection found")))
             (fun _ entity =>
                Returns (js "ca_" ++ entity,
                         Some (js "https://auth.example/" ++ entity)))
             (fun _ _ => Returns (Some []))
             (fun _ _ => Returns (mkLlmOutput (js "ok") (js "[]") (js "[]"))).

(** The state after a first setup request for [a@b.com] on that
    platform: a pending connection. *)
Definition pending_world : World :=
  exec fresh_platform (CallSetup (Some (js "a@b.com"))) init.

(** A platform whose request for tools is rejected with [null]. *)
Definition null_rejecting_platform : Platform :=
  mkPlatform (fun n => Z.of_nat n) js_of_int
             (fun _ _ => Returns tt)
             (fun _ _ => Throws (JsError (js "No connection found")))
             (fun _ entity =>
                Returns (js "ca_" ++ entity,
                         Some (js "https://auth.example/" ++ entity)))
             (fun _ _ => Throws (Nullish false))
             (fun _ _ => Returns (mkLlmOutput (js "ok") (js "[]") (js "[]"))).

End ServerRoutes.

(** * Properties of the connection registry *)

Module RegistryFacts.
Import Composio.

Ltac run_method :=
  unfold connectUserGoogleAccount, getUserConnectionId, hasUserConnection,
    refreshUserConnection, removeUserConnection, getUserConnectionsSummary,
    counts_active, counts_expired, connection_values, get_connection,
    set_connection, Date_now, mbind, M_bind, mret, M_mret; simpl.

(** ** Lists of entries with distinct keys *)

Section Keys.
Context {V : Type}.
Implicit Types (l : list (JsString * V)) (k : JsString).

Lemma filter_key_absent l k :
  k ∉ l.*1 -> filter (fun kv => kv.1 = k) l = [].
Proof.
  induction l as [|[k' v] l IH]; intros Hk; [done|].
  rewrite fmap_cons, not_elem_of_cons in Hk. destruct Hk as [Hne Hk].
  simpl in Hne. rewrite filter_cons_False by (simpl; congruence). auto.
Qed.

Lemma filter_key_present l k v :
  NoDup l.*1 -> (k, v) ∈ l -> filter (fun kv => kv.1 = k) l = [(k, v)].
Proof.
  induction l as [|[k' v'] l IH]; intros Hnd Hin.
  - by apply elem_of_nil in Hin.
  - rewrite fmap_cons in Hnd. apply NoDup_cons in Hnd as [Hk' Hnd].
    apply elem_of_cons in Hin as [Heq|Hin].
    + inversion Heq; subst k' v'.
      rewrite filter_cons_True by done.
      by rewrite filter_key_absent.
    + rewrite filter_cons_False; [by apply IH|].
      simpl. intros ->. apply Hk'.
      apply list_elem_of_fmap. by exists (k, v).
Qed.

End Keys.

(** ** The invariant of reachable states *)

Lemma filterM_registry {A} (p : A -> M bool) (l : list A) :
  (forall x w, userConnections (p x w).2 = userConnections w) ->
  forall w, userConnections (filterM p l w).2 = userConnections w.
Proof.
  intros Hp. induction l as [|x l IH]; intros w; [done|].
  simpl. unfold mbind, M_bind.
  specialize (Hp x w). destruct (p x w) as [b w1]. simpl in Hp.
  specialize (IH w1). destruct (filterM p l w1) as [r w2]. simpl in *.
  congruence.
Qed.

Lemma counts_active_registry clock c w :
  userConnections (counts_active clock c w).2 = userConnections w.
Proof. run_method. by destruct (decide _). Qed.

Lemma counts_expired_registry clock c w :
  userConnections (counts_expired clock c w).2 = userConnections w.
Proof. run_method. by destruct (decide _). Qed.

Lemma summary_registry clock w :
  userConnections (getUserConnectionsSummary clock w).2 = userConnections w.
Proof.
  unfold getUserConnectionsSummary, connection_values, mbind, M_bind.
  pose proof (filterM_registry (counts_active clock)
                (map_to_list (userConnections w)).*2
                (counts_active_registry clock) w) as Ha.
  destruct (filterM (counts_active clock) _ w) as [a w1].
  pose proof (filterM_registry (counts_expired clock)
                (map_to_list (userConnections w)).*2
                (counts_expired_registry clock) w1) as He.
  destruct (filterM (counts_expired clock) _ w1) as [e w2].
  simpl in *. congruence.
Qed.

Lemma has_registry clock email w :
  userConnections (hasUserConnection clock email w).2 = userConnections w.
Proof.
  run_method. destruct (userConnections w !! email) as [c|]; [|done].
  by destruct (decide _).
Qed.

(** What a call does to the map. *)
Lemma exec_registry clock call w :
  userConnections (exec clock call w) =
  match call with
  | Connect email token refresh expiresIn =>
      <[email := (mkUserConnection
                    (connectUserGoogleAccount clock email token refresh
                                              expiresIn w).1
                    email token refresh
                    (match expiresIn with
                     | Some n => if n =? 0 then clock (S (ticks w)) + 3600 * 1000
                                 else clock (S (ticks w)) + n * 1000
                     | None => clock (S (ticks w)) + 3600 * 1000
                     end) active)]> (userConnections w)
  | Refresh email =>
      match userConnections w !! email with
      | Some c =>
          if falsy_opt_string (refreshToken c) then userConnections w
          else <[email := with_expiresAt c (clock (ticks w) + 3600 * 1000)]>
                 (userConnections w)
      | None => userConnections w
      end
  | Remove email =>
      match userConnections w !! email with
      | Some c => <[email := with_status c revoked]> (userConnections w)
      | None => userConnections w
      end
  | _ => userConnections w
  end.
Proof.
  destruct call as [email token refresh expiresIn|email|email|email|email| |n];
    unfold exec.
  - run_method. done.
  - run_method. done.
  - apply has_registry.
  - run_method. destruct (userConnections w !! email) as [c|]; [|done].
    by destruct (falsy_opt_string _).
  - run_method. by destruct (userConnections w !! email).
  - apply summary_registry.
  - done.
Qed.

Lemma exec_well_keyed clock call w :
  well_keyed w -> well_keyed (exec clock call w).
Proof.
  unfold well_keyed. intros Hw. rewrite exec_registry.
  destruct call as [email token refresh expiresIn|email|email|email|email| |n];
    try done.
  - apply map_Forall_insert_2; [done|done].
  - destruct (userConnections w !! email) as [c|] eqn:Hc; [|done].
    destruct (falsy_opt_string _); [done|].
    apply map_Forall_insert_2; [|done]. apply (Hw _ _ Hc).
  - destruct (userConnections w !! email) as [c|] eqn:Hc; [|done].
    apply map_Forall_insert_2; [|done].
    split; [apply (Hw _ _ Hc)|done].
Qed.

Lemma reachable_well_keyed clock w : reachable clock w -> well_keyed w.
Proof.
  induction 1 as [|call w _ IH].
  - unfold well_keyed, init; simpl. apply map_Forall_empty.
  - by apply exec_well_keyed.
Qed.

Lemma records_of_lookup w email :
  well_keyed w ->
  records_of email w =
  match userConnections w !! email with Some c => [c] | None => [] end.
Proof.
  unfold well_keyed, records_of. intros Hw.
  assert (Hfilter : filter (fun c => userEmail c = email)
                      (map_to_list (userConnections w)).*2
                    = (filter (fun kv => kv.1 = email)
                         (map_to_list (userConnections w))).*2).
  { apply map_Forall_to_list in Hw.
    induction Hw as [|[k c] l [Hk _] _ IH]; [done|].
    rewrite fmap_cons. simpl in Hk. simpl.
    destruct (decide (k = email)) as [->|Hne].
    - rewrite !filter_cons_True by (simpl; congruence).
      rewrite fmap_cons. simpl. by f_equal.
    - rewrite !filter_cons_False by (simpl; congruence). done. }
  rewrite Hfilter.
  destruct (userConnections w !! email) as [c|] eqn:Hc.
  - rewrite (filter_key_present _ email c); [done| |].
    + apply NoDup_fst_map_to_list.
    + by apply elem_of_map_to_list.
  - rewrite filter_key_absent; [done|].
    intros Hin. apply list_elem_of_fmap in Hin as [[k c] [-> Hin]].
    apply elem_of_map_to_list in Hin. simpl in Hc. congruence.
Qed.

(** ** Reading a connection: [hasUserConnection] *)

(** C3. [hasUserConnection] answers true exactly when a record is stored for
    the email, its status is active and its expiry is strictly later than
    the clock reading [now]; with an expiry at or before [now] the answer is
    false; the map of records is left as it was. *)
Theorem hasUserConnection_iff clock email w :
  let now := clock (ticks w) in
  let r := hasUserConnection clock email w in
  (r.1 = true <->
   exists c, userConnections w !! email = Some c /\
             status c = active /\ expiresAt c > now) /\
  (forall c, userConnections w !! email = Some c ->
             expiresAt c <= now -> r.1 = false) /\
  userConnections r.2 = userConnections w.
Proof.
  cbv zeta. split; [|split]; [| |apply has_registry].
  - run_method. destruct (userConnections w !! email) as [c|]; simpl.
    + destruct (decide (status c = active)) as [Ha|Hna]; simpl.
      * rewrite bool_decide_eq_true. split.
        -- intros Hlt. by exists c.
        -- intros (c' & Heq & _ & Hlt). by inversion Heq; subst.
      * split; [done|]. intros (c' & Heq & Ha & _).
        inversion Heq; subst. contradiction.
    + split; [done|]. by intros (c' & Heq & _).
  - intros c Hc Hle. run_method. rewrite Hc. simpl.
    destruct (decide (status c = active)); [|done]. simpl.
    apply bool_decide_eq_false. lia.
Qed.

Lemma has_not_active clock email w c :
  userConnections w !! email = Some c -> status c <> active ->
  (hasUserConnection clock email w).1 = false.
Proof.
  intros Hc Hs. run_method. rewrite Hc.
  by destruct (decide (status c = active)).
Qed.

(** ** Calls that keep a revoked record revoked *)

Lemma exec_keeps_revoked clock email call w :
  ~ reconnects email call -> is_revoked email w ->
  is_revoked email (exec clock call w).
Proof.
  unfold is_revoked. intros Hcall (c & Hc & Hs). rewrite exec_registry.
  destruct call as [e token refresh expiresIn|e|e|e|e| |n]; simpl in Hcall;
    try (by exists c).
  - rewrite lookup_insert_ne by done. by exists c.
  - destruct (userConnections w !! e) as [c'|] eqn:Hc'; [|by exists c].
    destruct (falsy_opt_string _); [by exists c|].
    destruct (decide (e = email)) as [->|Hne].
    + rewrite lookup_insert_eq. eexists; split; [done|].
      simpl. congruence.
    + rewrite lookup_insert_ne by done. by exists c.
  - destruct (userConnections w !! e) as [c'|] eqn:Hc'; [|by exists c].
    destruct (decide (e = email)) as [->|Hne].
    + rewrite lookup_insert_eq. by eexists.
    + rewrite lookup_insert_ne by done. by exists c.
Qed.

Lemma run_keeps_revoked clock email calls w :
  Forall (fun call => ~ reconnects email call) calls ->
  is_revoked email w -> is_revoked email (run clock calls w).
Proof.
  intros Hcalls. revert w.
  induction Hcalls as [|call calls Hcall _ IH]; intros w Hw; [done|].
  simpl. apply IH. by apply exec_keeps_revoked.
Qed.

(** ** Revoking: [removeUserConnection] *)

(** C4. For an email with a record, [removeUserConnection] returns true and
    stores the record with status revoked, other emails being untouched;
    afterwards [hasUserConnection] is false for that email whatever the
    clock says (so also while the expiry is in the future), and it stays
    false after any further calls that do not connect that email again.
    For an email without a record the method returns false and changes
    nothing. *)
Theorem revoke_then_inactive email w :
  (forall c, userConnections w !! email = Some c ->
     let r := removeUserConnection email w in
     r.1 = true /\
     userConnections r.2 !! email = Some (with_status c revoked) /\
     (forall k, k <> email ->
        userConnections r.2 !! k = userConnections w !! k) /\
     (forall clock', (hasUserConnection clock' email r.2).1 = false) /\
     (forall clock' calls,
        Forall (fun call => ~ reconnects email call) calls ->
        (hasUserConnection clock' email (run clock' calls r.2)).1 = false)) /\
  (userConnections w !! email = None ->
     removeUserConnection email w = (false, w)).
Proof.
  split.
  - intros c Hc. cbv zeta.
    assert (Hr : removeUserConnection email w =
                 (true, mkWorld (<[email := with_status c revoked]>
                                   (userConnections w)) (ticks w))).
    { run_method. by rewrite Hc. }
    rewrite Hr. simpl.
    assert (Hrev : is_revoked email
                     (mkWorld (<[email := with_status c revoked]>
                                 (userConnections w)) (ticks w))).
    { exists (with_status c revoked). simpl. by rewrite lookup_insert_eq. }
    split; [done|]. split; [by rewrite lookup_insert_eq|].
    split; [by intros k Hk; rewrite lookup_insert_ne|].
    split.
    + intros clock'. destruct Hrev as (c' & Hc' & Hs).
      apply (has_not_active clock' _ _ c'); [done|congruence].
    + intros clock' calls Hcalls.
      destruct (run_keeps_revoked clock' email calls _ Hcalls Hrev)
        as (c' & Hc' & Hs).
      apply (has_not_active clock' _ _ c'); [done|congruence].
  - intros Hc. run_method. by rewrite Hc.
Qed.

(** In [two_hour_world] the connection of [alice] is in use at reading 2
    (expiry 7200001); revoking it makes [hasUserConnection] false at once. *)
Lemma revoke_then_inactive_witness :
  (hasUserConnection ms_clock alice two_hour_world).1 = true /\
  (removeUserConnection alice two_hour_world).1 = true /\
  (hasUserConnection ms_clock alice
     (removeUserConnection alice two_hour_world).2).1 = false /\
  removeUserConnection alice init = (false, init).
Proof.
  split; [vm_compute; reflexivity|].
  destruct (revoke_then_inactive alice two_hour_world) as [Hsome _].
  destruct (revoke_then_inactive alice init) as [_ Hnone].
  destruct (Hsome (mkUserConnection (js "conn_a@b.com_0") alice (js "t1")
                     (Some (js "r1")) 7200001 active))
    as (Hr & _ & _ & Hhas & _); [vm_compute; reflexivity|].
  split; [exact Hr|]. split; [apply Hhas|].
  apply Hnone. vm_compute; reflexivity.
Defined.

(** ** Refreshing: [refreshUserConnection] *)

Lemma refresh_with_token clock email w c :
  userConnections w !! email = Some c ->
  falsy_opt_string (refreshToken c) = false ->
  refreshUserConnection clock email w
  = (true,
     mkWorld (<[email := with_expiresAt c (clock (ticks w) + 3600000)]>
                (userConnections w))
             (S (ticks w))).
Proof. intros Hc Hf. run_method. by rewrite Hc, Hf. Qed.

(** C2.  [refreshUserConnection] at the input where it does not extend:
    after a connect with [expires_in = 7200] the record of [a@b.com]
    expires at 7200001; a refresh at the next reading of the clock returns
    true and leaves the record expiring at 3600002, almost an hour earlier.
    The assignment of line 137 carries the comment [// Extend by 1 hour],
    and computes the new expiry from [Date.now()] instead of from the old
    expiry. *)
Lemma refresh_can_shorten_expiry :
  expiresAt <$> userConnections two_hour_world !! alice = Some 7200001 /\
  (refreshUserConnection ms_clock alice two_hour_world).1 = true /\
  expiresAt <$>
    userConnections (refreshUserConnection ms_clock alice two_hour_world).2
      !! alice = Some 3600002.
Proof. vm_compute. repeat split; reflexivity. Qed.

(** C10. [refreshUserConnection] does not look at the status: for a record
    of any status that has a non-empty refresh token it returns true and
    sets the expiry one hour after the clock reading, leaving the status
    alone; when that status is not active (revoked, or expired),
    [hasUserConnection] is still false afterwards, whatever the clock. *)
Theorem refresh_ignores_status clock email w c :
  userConnections w !! email = Some c ->
  falsy_opt_string (refreshToken c) = false ->
  let now := clock (ticks w) in
  let r := refreshUserConnection clock email w in
  r.1 = true /\
  (exists c', userConnections r.2 !! email = Some c' /\
              status c' = status c /\
              expiresAt c' = now + 3600000 /\ expiresAt c' > now) /\
  (status c <> active ->
   forall clock', (hasUserConnection clock' email r.2).1 = false).
Proof.
  intros Hc Hf. cbv zeta.
  rewrite (refresh_with_token clock email w c Hc Hf). simpl.
  split; [done|].
  pose proof (lookup_insert_eq (userConnections w) email
                (with_expiresAt c (clock (ticks w) + 3600000))) as Hc'.
  split.
  - eexists. split; [exact Hc'|]. simpl. repeat split; lia.
  - intros Hs clock'.
    by apply (has_not_active clock' email _
                (with_expiresAt c (clock (ticks w) + 3600000))).
Qed.

(** The revoked record of [revoked_world] is refreshed at reading 2 (new
    expiry 3600002), and [hasUserConnection] is still false at reading 3. *)
Lemma refresh_ignores_status_witness :
  (refreshUserConnection ms_clock alice revoked_world).1 = true /\
  (hasUserConnection ms_clock alice
     (refreshUserConnection ms_clock alice revoked_world).2).1 = false.
Proof.
  destruct (refresh_ignores_status ms_clock alice revoked_world
              (mkUserConnection (js "conn_a@b.com_0") alice (js "t1")
                 (Some (js "r1")) 7200001 revoked))
    as (Hr & _ & Hhas); [vm_compute; reflexivity|reflexivity|].
  split; [exact Hr|]. apply Hhas. discriminate.
Defined.

(** ** Connecting: [connectUserGoogleAccount] *)

(** C5. In every reachable state at most one record carries a given email.
    A connect from a reachable state leads to a reachable state in which
    exactly one record carries the email; it is the one stored under the
    email, its status is active and it holds the tokens just given; the
    records of other emails are untouched, and the map grows by one entry if
    the email had no record and keeps its size if it had one (the old record
    is overwritten). *)
Theorem connect_one_active_record clock :
  (forall w email, reachable clock w ->
     (length (records_of email w) <= 1)%nat) /\
  (forall w email token refresh expiresIn, reachable clock w ->
     let r := connectUserGoogleAccount clock email token refresh expiresIn w in
     reachable clock r.2 /\
     (exists c, userConnections r.2 !! email = Some c /\
                records_of email r.2 = [c] /\
                status c = active /\ userEmail c = email /\
                connectionId c = r.1 /\ accessToken c = token /\
                refreshToken c = refresh) /\
     (forall k, k <> email ->
        userConnections r.2 !! k = userConnections w !! k) /\
     size (userConnections r.2) =
       match userConnections w !! email with
       | Some _ => size (userConnections w)
       | None => S (size (userConnections w))
       end).
Proof.
  split.
  - intros w email Hw. rewrite records_of_lookup
      by (by apply (reachable_well_keyed clock)).
    destruct (userConnections w !! email); simpl; lia.
  - intros w email token refresh expiresIn Hw. cbv zeta.
    pose proof (reachable_exec clock
                  (Connect email token refresh expiresIn) w Hw) as Hr.
    pose proof (reachable_well_keyed clock _ Hr) as Hwk.
    pose proof (exec_registry clock
                  (Connect email token refresh expiresIn) w) as Hmap.
    unfold exec in Hr, Hwk, Hmap.
    split; [done|]. split; [|split].
    + eexists. split; [by rewrite Hmap, lookup_insert_eq|].
      rewrite records_of_lookup, Hmap, lookup_insert_eq by done.
      by repeat split.
    + intros k Hk. by rewrite Hmap, lookup_insert_ne.
    + rewrite Hmap, map_size_insert.
      by destruct (userConnections w !! email).
Qed.

(** ** Counting: [getUserConnectionsSummary] *)

(** C9 (as stated) fails: each filter reads the clock itself.  With one active
    record that expires at 1000, a first filter that reads 999 and a second
    one that reads 1000 count the record as active and as expired: total 1,
    active 1, expired 1. *)
Lemma summary_counts_record_twice :
  expiresAt <$> userConnections one_second_world !! alice = Some 1000 /\
  (getUserConnectionsSummary ticking_clock one_second_world).1
  = mkSummary 1 1 1.
Proof. vm_compute. split; reflexivity. Qed.

Section Counting.
Implicit Types (l : list UserConnection) (c : UserConnection).

Lemma filterM_sublist (p : UserConnection -> M bool)
    (R : UserConnection -> Prop) `{!forall c, Decision (R c)} :
  (forall c w, (p c w).1 = true -> R c) ->
  forall l w, (filterM p l w).1 `sublist_of` filter R l.
Proof.
  intros Hp. induction l as [|c l IH]; intros w; [done|].
  simpl. unfold mbind, M_bind.
  specialize (Hp c w). destruct (p c w) as [b w1]. simpl in Hp.
  specialize (IH w1). destruct (filterM p l w1) as [r w2]. simpl in *.
  destruct b.
  - rewrite filter_cons_True by auto. by apply sublist_skip.
  - destruct (decide (R c)).
    + rewrite filter_cons_True by done. by apply sublist_cons.
    + by rewrite filter_cons_False by done.
Qed.

Lemma filterM_steady (p : UserConnection -> M bool)
    (Q : Z -> UserConnection -> Prop) `{!forall t c, Decision (Q t c)}
    (clock : nat -> Z) (now : Z) :
  (forall c w,
     (ticks (p c w).2 = ticks w /\
      forall t, (p c w).1 = bool_decide (Q t c)) \/
     (ticks (p c w).2 = S (ticks w) /\
      (p c w).1 = bool_decide (Q (clock (ticks w)) c))) ->
  forall l w,
    (ticks w <= ticks (filterM p l w).2)%nat /\
    ((forall i, (ticks w <= i < ticks (filterM p l w).2)%nat ->
                clock i = now) ->
     (filterM p l w).1 = filter (Q now) l).
Proof.
  intros Hp. induction l as [|c l IH]; intros w; [done|].
  simpl. unfold mbind, M_bind.
  specialize (Hp c w). destruct (p c w) as [b w1]. simpl in Hp.
  specialize (IH w1). destruct (filterM p l w1) as [r w2]. simpl in *.
  destruct IH as [Hle IH]. split; [lia|]. intros Hclock.
  rewrite IH by (intros i Hi; apply Hclock; lia).
  assert (Hb : b = bool_decide (Q now c)).
  { destruct Hp as [[_ Hb]|[Hw1 Hb]]; [done|].
    rewrite Hb, (Hclock (ticks w)) by lia. done. }
  subst b. destruct (decide (Q now c)).
  - by rewrite bool_decide_eq_true_2, filter_cons_True.
  - by rewrite bool_decide_eq_false_2, filter_cons_False.
Qed.

Lemma counts_active_true clock c w :
  (counts_active clock c w).1 = true -> status c = active.
Proof. run_method. by destruct (decide (status c = active)). Qed.

Lemma counts_expired_true clock c w :
  (counts_expired clock c w).1 = true -> status c = active.
Proof. run_method. by destruct (decide (status c = active)). Qed.

Lemma counts_active_reads clock c w :
  (ticks (counts_active clock c w).2 = ticks w /\
   forall t, (counts_active clock c w).1
             = bool_decide (status c = active /\ expiresAt c > t)) \/
  (ticks (counts_active clock c w).2 = S (ticks w) /\
   (counts_active clock c w).1
   = bool_decide (status c = active /\ expiresAt c > clock (ticks w))).
Proof.
  run_method. destruct (decide (status c = active)); simpl.
  - right. split; [done|]. apply bool_decide_ext. tauto.
  - left. split; [done|]. intros t. symmetry.
    apply bool_decide_eq_false. tauto.
Qed.

Lemma counts_expired_reads clock c w :
  (ticks (counts_expired clock c w).2 = ticks w /\
   forall t, (counts_expired clock c w).1
             = bool_decide (status c = active /\ expiresAt c <= t)) \/
  (ticks (counts_expired clock c w).2 = S (ticks w) /\
   (counts_expired clock c w).1
   = bool_decide (status c = active /\ expiresAt c <= clock (ticks w))).
Proof.
  run_method. destruct (decide (status c = active)); simpl.
  - right. split; [done|]. apply bool_decide_ext. tauto.
  - left. split; [done|]. intros t. symmetry.
    apply bool_decide_eq_false. tauto.
Qed.

Lemma status_partition (now : Z) l :
  (length (filter (fun c => status c = active /\ (expiresAt c > now)%Z) l)
   + length (filter (fun c => status c = active /\ (expiresAt c <= now)%Z) l)
   + length (filter (fun c => status c <> active) l) = length l)%nat.
Proof.
  induction l as [|c l IH]; [done|].
  destruct (decide (status c = active)) as [Ha|Hna].
  - rewrite (filter_cons_False (fun c => status c <> active)) by tauto.
    destruct (decide (expiresAt c > now)).
    + rewrite filter_cons_True by done.
      rewrite filter_cons_False by lia. simpl. lia.
    + rewrite filter_cons_False by tauto.
      rewrite filter_cons_True by (split; [done|lia]). simpl. lia.
  - rewrite (filter_cons_True (fun c => status c <> active)) by done.
    rewrite !filter_cons_False by tauto. simpl. lia.
Qed.

Lemma none_inactive_iff l :
  length (filter (fun c => status c <> active) l) = 0%nat
  <-> Forall (fun c => status c = active) l.
Proof.
  induction l as [|c l IH]; [by split; [constructor|]|].
  destruct (decide (status c = active)) as [Ha|Hna].
  - rewrite filter_cons_False by tauto. rewrite IH. split.
    + by constructor.
    + by inversion 1.
  - rewrite filter_cons_True by done. simpl. split; [lia|].
    by inversion 1.
Qed.

End Counting.

(** C9 (amended).  [total] is the number of records.  Whatever the clock
    does, only records whose status is active are counted as active or as
    expired (a revoked record is in neither count), and the map is left as
    it was.  When every clock reading made during the call is the same
    instant [now], [active] counts the records with status active and
    expiry after [now], [expired] those with status active and expiry at or
    before [now]; then active + expired is at most total, with equality
    exactly when every record has status active, which in a reachable state
    means that no record is revoked. *)
Theorem summary_counts clock w :
  let s := (getUserConnectionsSummary clock w).1 in
  let w' := (getUserConnectionsSummary clock w).2 in
  let cs := (map_to_list (userConnections w)).*2 in
  (total s = size (userConnections w) /\
   (n_active s <= length (filter (fun c => status c = active) cs))%nat /\
   (n_expired s <= length (filter (fun c => status c = active) cs))%nat /\
   userConnections w' = userConnections w) /\
  forall now, (forall i, (ticks w <= i < ticks w')%nat -> clock i = now) ->
    n_active s
    = length (filter (fun c => status c = active /\ expiresAt c > now) cs) /\
    n_expired s
    = length (filter (fun c => status c = active /\ expiresAt c <= now) cs) /\
    (n_active s + n_expired s
     + length (filter (fun c => status c <> active) cs) = total s)%nat /\
    (n_active s + n_expired s <= total s)%nat /\
    ((n_active s + n_expired s = total s)%nat
     <-> Forall (fun c => status c = active) cs) /\
    (reachable clock w ->
     ((n_active s + n_expired s = total s)%nat
      <-> Forall (fun c => status c <> revoked) cs)).
Proof.
  cbv zeta. split; [split; [|split; [|split]]|].
  5: intros now Hnow.
  all: pose proof (summary_registry clock w) as Hreg.
  all: unfold getUserConnectionsSummary, connection_values, mbind, M_bind
         in *.
  all: set (cs := (map_to_list (userConnections w)).*2) in *.
  all: pose proof (filterM_sublist (counts_active clock)
                     (fun c => status c = active)
                     (counts_active_true clock) cs w) as Hsa.
  all: pose proof (fun now =>
                     filterM_steady (counts_active clock)
                       (fun t c => status c = active /\ expiresAt c > t)
                       clock now (counts_active_reads clock) cs w) as Hta.
  all: destruct (filterM (counts_active clock) cs w) as [a w1].
  all: pose proof (filterM_sublist (counts_expired clock)
                     (fun c => status c = active)
                     (counts_expired_true clock) cs w1) as Hse.
  all: pose proof (fun now =>
                     filterM_steady (counts_expired clock)
                       (fun t c => status c = active /\ expiresAt c <= t)
                       clock now (counts_expired_reads clock) cs w1) as Hte.
  all: destruct (filterM (counts_expired clock) cs w1) as [e w2].
  all: simpl in *.
  - unfold cs. by rewrite length_fmap, length_map_to_list.
  - by apply sublist_length.
  - by apply sublist_length.
  - done.
  - destruct (Hta now) as [Hle1 Ha]. destruct (Hte now) as [Hle2 He].
    rewrite Ha by (intros i Hi; apply Hnow; lia).
    rewrite He by (intros i Hi; apply Hnow; lia).
    pose proof (status_partition now cs) as Hpart.
    pose proof (none_inactive_iff cs) as Hnone.
    split; [done|]. split; [done|]. split; [done|]. split; [lia|].
    split; [rewrite <- Hnone; lia|].
    intros Hw.
    assert (Hne : Forall (fun c => status c <> expired) cs).
    { apply (reachable_well_keyed clock) in Hw. unfold well_keyed in Hw.
      apply map_Forall_to_list in Hw. unfold cs. apply Forall_fmap.
      eapply Forall_impl; [exact Hw|]. intros [k c] [_ Hc]. exact Hc. }
    transitivity (Forall (fun c => status c = active) cs);
      [rewrite <- Hnone; lia|].
    rewrite !Forall_forall. split.
    + intros Hall c Hc. rewrite (Hall c Hc). discriminate.
    + intros Hall c Hc. rewrite Forall_forall in Hne.
      specialize (Hall c Hc). specialize (Hne c Hc).
      by destruct (status c).
Qed.

(** With the clock standing still at 5: of the two records of a reachable
    state, one active and one revoked, one is counted as active. *)
Lemma summary_counts_witness :
  (getUserConnectionsSummary steady_clock mixed_world).1 = mkSummary 2 1 0 /\
  (n_active (getUserConnectionsSummary steady_clock mixed_world).1
   + n_expired (getUserConnectionsSummary steady_clock mixed_world).1
   <= total (getUserConnectionsSummary steady_clock mixed_world).1)%nat.
Proof.
  split; [vm_compute; reflexivity|].
  destruct (proj2 (summary_counts steady_clock mixed_world) 5)
    as (_ & _ & _ & Hle & _); [reflexivity|exact Hle].
Defined.

End RegistryFacts.

(** * Properties of the API server *)

Module ServerFacts.
Import Server.

Ltac run_server :=
  unfold send_message, checkConnectionStatus, getUserTools,
    setupUserConnectionIfNotExists, try_catch, throw, request, llm,
    timestamp_now, get_connection, get_entity, set_connection, set_entity,
    mbind, M_bind, mret, M_mret; simpl.

(** ** Entity mapping *)

(** C1 (as stated) fails: the entity id of [a@b.com] is [a_b_com], and the
    underscore is not alphanumeric. *)
Lemma entityId_has_underscores :
  entityIdOf (js "a@b.com") = js "a_b_com" /\
  forallb is_alnum (entityIdOf (js "a@b.com")) = false.
Proof. vm_compute. split; reflexivity. Qed.

Ltac units_to_lia :=
  unfold is_alnum, is_upper, is_entity_unit in *;
  rewrite ?orb_true_iff, ?andb_true_iff, ?orb_false_iff, ?andb_false_iff,
    ?N.leb_le, ?N.leb_gt, ?N.eqb_eq, ?N.eqb_neq in *;
  lia.

Lemma entity_unit_of (u : N) :
  is_entity_unit
    (if is_upper (if is_alnum u then u else 95%N)
     then ((if is_alnum u then u else 95) + 32)%N
     else if is_alnum u then u else 95%N) = true.
Proof.
  destruct (is_alnum u) eqn:Ha; [|reflexivity].
  destruct (is_upper u) eqn:Hu; units_to_lia.
Qed.

Lemma lower_of_entity_unit (u : N) :
  is_entity_unit u = true -> is_upper u = false.
Proof. intros Hu. destruct (is_upper u) eqn:Hup; [units_to_lia|done]. Qed.

Lemma entityIdOf_units email :
  Forall (fun u => is_entity_unit u = true) (entityIdOf email).
Proof.
  unfold entityIdOf, toLowerCase, replace_non_alnum.
  induction email as [|u email IH]; simpl; constructor; [|exact IH].
  apply entity_unit_of.
Qed.

Lemma setup_stores_entity P email w :
  userEntities (setupUserConnectionIfNotExists P email w).2 !! email
  = Some (entityIdOf email).
Proof.
  run_server.
  destruct (getEntity P (requests w) (entityIdOf email)); simpl;
    [|by rewrite lookup_insert_eq].
  destruct (getConnection P (S (requests w)) (entityIdOf email)); simpl;
    [by rewrite lookup_insert_eq|].
  destruct (initiateConnection P (S (S (requests w))) (entityIdOf email));
    simpl; by rewrite lookup_insert_eq.
Qed.

(** C1 (amended).  The entity id is a function of the email alone: whatever
    the state and the answers of the platform, [setupUserConnectionIfNotExists]
    records [entityIdOf email] for the email.  The id has as many code units
    as the email; each is a digit, a lower-case letter or an underscore: a
    letter or digit of the email is kept, lower-cased, and any other code unit
    becomes an underscore.  Lower-casing the id again changes nothing. *)
Theorem entityId_sanitized P email w :
  userEntities (setupUserConnectionIfNotExists P email w).2 !! email
  = Some (entityIdOf email) /\
  length (entityIdOf email) = length email /\
  Forall (fun u => is_entity_unit u = true) (entityIdOf email) /\
  (forall i u, email !! i = Some u ->
     entityIdOf email !! i
     = Some (if is_alnum u then (if is_upper u then u + 32 else u)%N
             else 95%N)) /\
  toLowerCase (entityIdOf email) = entityIdOf email.
Proof.
  split; [apply setup_stores_entity|].
  split; [unfold entityIdOf, toLowerCase, replace_non_alnum;
          by rewrite !length_map|].
  split; [apply entityIdOf_units|]. split.
  - intros i u Hu. unfold entityIdOf, toLowerCase, replace_non_alnum.
    change (map ?f ?l) with (f <$> l).
    rewrite !list_lookup_fmap, Hu. simpl.
    destruct (is_alnum u); [done|]. by vm_compute.
  - pose proof (entityIdOf_units email) as Hunits.
    unfold toLowerCase at 1.
    induction Hunits as [|u l Hu _ IH]; [done|].
    simpl. rewrite (lower_of_entity_unit u Hu). by f_equal.
Qed.

(** ** The chat endpoint *)

Lemma run_bind {A B} (m : M A) (k : A -> M B) (w : World) :
  (m ≫= k) w = match m w with
               | (Returns a, w') => k a w'
               | (Throws t, w') => (Throws t, w')
               end.
Proof. reflexivity. Qed.

(** [checkConnectionStatus] calls no LLM, whether it returns or throws. *)
Lemma check_llm P email w :
  llmCalls (checkConnectionStatus P email w).2 = llmCalls w.
Proof.
  run_server.
  destruct (userConnections w !! email) as [d|]; simpl; [|done].
  destruct (userEntities w !! email) as [e|] eqn:He; simpl; [|done].
  destruct (falsy_string e) eqn:Hf; simpl; [done|].
  rewrite He, Hf. simpl.
  destruct (getTools P (requests w) e) as [tools|t]; simpl.
  - by destruct (has_tools tools).
  - by destruct (error_message t).
Qed.

(** C6. For a request with a message and an email whose connection status
    resolves to [not_found], [pending] or [error], the endpoint answers with
    a reply that has [needsConnection] set and the text that asks to connect
    or reconnect, and calls the LLM not once.  For any request at all, an
    LLM call is made only if the message and the email are present and the
    status resolves to [active]. *)
Theorem dispatch_short_circuits P message email w :
  (forall e s,
     falsy_opt_string message = false ->
     email = Some e -> falsy_string e = false ->
     (checkConnectionStatus P e w).1 = Returns s ->
     cs_status s = not_found \/ cs_status s = pending \/ cs_status s = error ->
     llmCalls (send_message P message email w).2 = llmCalls w /\
     exists reply t,
       (send_message P message email w).1 = Returns (Success reply t) /\
       needsConnection reply = Some true /\
       Server.message reply = reconnect_text s /\
       userEmail reply = e) /\
  (llmCalls (send_message P message email w).2 <> llmCalls w ->
   falsy_opt_string message = false /\
   exists e s, email = Some e /\ falsy_string e = false /\
               (checkConnectionStatus P e w).1 = Returns s /\
               cs_status s = active).
Proof.
  split.
  - intros e s Hm -> He Hs Hstatus.
    pose proof (check_llm P e w) as Hllm.
    unfold send_message, try_catch. rewrite Hm.
    cbn [falsy_opt_string]. rewrite He.
    cbv beta iota zeta delta [default from_option id].
    rewrite run_bind.
    destruct (checkConnectionStatus P e w) as [o w1]. simpl in Hs, Hllm.
    subst o. unfold reconnect_text.
    destruct Hstatus as [Hst|[Hst|Hst]]; rewrite Hst; run_server;
      (split; [done|]); do 2 eexists; by repeat split.
  - intros Hcalls. unfold send_message, try_catch in Hcalls.
    destruct (falsy_opt_string message) eqn:Hm;
      [by exfalso; apply Hcalls; run_server|].
    split; [done|].
    destruct (falsy_opt_string email) eqn:He;
      [by exfalso; apply Hcalls; run_server|].
    destruct email as [e|]; [|done].
    cbn [falsy_opt_string] in He.
    cbv beta iota zeta delta [default from_option id] in Hcalls.
    pose proof (check_llm P e w) as Hllm.
    rewrite run_bind in Hcalls.
    destruct (checkConnectionStatus P e w) as [[s|t] w1] eqn:Hc;
      simpl in Hllm; [|by exfalso; apply Hcalls; run_server].
    exists e, s. rewrite Hc. split; [done|]. split; [done|]. split; [done|].
    destruct (cs_status s); [done|..];
      exfalso; apply Hcalls; run_server; done.
Qed.

(** [{message: "book lunch", userEmail: "a@b.com"}] with no connection. *)
Lemma dispatch_short_circuits_witness :
  llmCalls (send_message silent_platform (Some (js "book lunch"))
              (Some (js "a@b.com")) init).2 = 0%nat /\
  exists reply t,
    (send_message silent_platform (Some (js "book lunch"))
       (Some (js "a@b.com")) init).1 = Returns (Success reply t) /\
    needsConnection reply = Some true.
Proof.
  destruct (proj1 (dispatch_short_circuits silent_platform
                     (Some (js "book lunch")) (Some (js "a@b.com")) init)
              (js "a@b.com")
              (mkConnectionStatus not_found (Some (js "No connection found"))
                                  None))
    as (Hcalls & reply & t & Hr & Hneeds & _);
    [reflexivity|reflexivity|reflexivity|reflexivity|by left|].
  split; [exact Hcalls|]. exists reply, t. by split.
Defined.

End ServerFacts.

(** * Properties of the OAuth callback page *)

Module OAuthFacts.
Import OAuthCallback.

Ltac run_page :=
  unfold handleOAuthCallback, try_catch, throw, call, setCallbackState,
    dispatch_chat, console_line, redirect_after, Date_now, final_status,
    mbind, M_bind, mret, M_mret; simpl.

(** C7. When [handleCallback] gives no code and state for the URL (it
    returns [null] or throws), the handler shows [processing] and then
    [error], which is the state it ends in; [success] is never shown, and
    the redirect is scheduled after 5 seconds. *)
Theorem missing_parameters_end_in_error S url email :
  (handleCallback S url = Returns None \/
   exists t, handleCallback S url = Throws t) ->
  let page := (handleOAuthCallback S url email init).2 in
  (handleOAuthCallback S url email init).1 = Returns tt /\
  final_status page = Some error /\
  status <$> shown page = [processing; processing; error] /\
  Forall (fun s => status s <> success) (shown page) /\
  redirectAfter page = Some 5000.
Proof.
  intros Hurl. cbv zeta.
  destruct Hurl as [Hurl|[t Hurl]]; run_page; rewrite Hurl; simpl;
    repeat split; by repeat constructor.
Qed.

(** A redirect URL without [code]. *)
Lemma missing_parameters_end_in_error_witness :
  final_status
    (handleOAuthCallback (sample_services failing_bridge)
       (js "https://app/callback?state=XYZ") (Some (js "a@b.com")) init).2
  = Some error.
Proof.
  destruct (missing_parameters_end_in_error (sample_services failing_bridge)
              (js "https://app/callback?state=XYZ") (Some (js "a@b.com")))
    as (_ & Hfinal & _); [left; vm_compute; reflexivity|exact Hfinal].
Defined.

(** C8. When the code and state are read, the token exchange succeeds and
    the notification of the server integration throws, the handler logs a
    warning and goes on: it shows [processing] and then [success], which is
    the state it ends in; [error] is never shown, nothing is logged at the
    error level, and the redirect is scheduled after 2 seconds. *)
Theorem bridge_failure_is_swallowed S url email code state tokens t :
  handleCallback S url = Returns (Some (code, state)) ->
  exchangeCodeForTokens S code state = Returns tokens ->
  falsy_string email = false ->
  connectToServerIntegration S email = Throws t ->
  let page := (handleOAuthCallback S url (Some email) init).2 in
  (handleOAuthCallback S url (Some email) init).1 = Returns tt /\
  final_status page = Some success /\
  status <$> shown page
  = [processing; processing; processing; processing; success] /\
  Forall (fun s => status s <> error) (shown page) /\
  Forall (fun l => l.1 <> error_level) (console page) /\
  (exists line, (warn, line) ∈ console page) /\
  redirectAfter page = Some 2000.
Proof.
  intros Hurl Hex Hemail Hbridge. cbv zeta.
  run_page. rewrite Hurl. simpl. rewrite Hex. simpl. rewrite Hemail.
  simpl. rewrite Hbridge. simpl.
  repeat split; try by repeat constructor.
  eexists. apply list_elem_of_In. simpl. right. left. reflexivity.
Qed.

Lemma bridge_failure_is_swallowed_witness :
  final_status
    (handleOAuthCallback (sample_services failing_bridge)
       (js "https://app/callback?code=ABC&state=XYZ") (Some (js "a@b.com"))
       init).2
  = Some success.
Proof.
  destruct (bridge_failure_is_swallowed (sample_services failing_bridge)
              (js "https://app/callback?code=ABC&state=XYZ") (js "a@b.com")
              (js "ABC") (js "XYZ") tt
              (JsError (js "Server integration unavailable")))
    as (_ & Hfinal & _);
    [vm_compute; reflexivity|reflexivity|reflexivity|reflexivity
    |exact Hfinal].
Defined.

End OAuthFacts.

(** * Further properties of the connection registry *)

Module ServiceFacts.
Import Composio ComposioTools RegistryFacts.

Lemma run_snoc clock calls call w :
  run clock (calls ++ [call]) w = exec clock call (run clock calls w).
Proof. unfold run. by rewrite foldl_app. Qed.

Lemma run_cons clock call calls w :
  run clock (call :: calls) w = run clock calls (exec clock call w).
Proof. reflexivity. Qed.

Lemma exec_other_email clock call k w :
  target call <> Some k ->
  userConnections (exec clock call w) !! k = userConnections w !! k.
Proof.
  intros Ht. rewrite exec_registry.
  destruct call as [e token refresh expiresIn|e|e|e|e| |n]; simpl in Ht;
    try done.
  - apply lookup_insert_ne. congruence.
  - destruct (userConnections w !! e); [|done].
    destruct (falsy_opt_string _); [done|].
    apply lookup_insert_ne. congruence.
  - destruct (userConnections w !! e); [|done].
    apply lookup_insert_ne. congruence.
Qed.

(** X1. Calls about other emails leave the record of an email as it is:
    after any sequence of calls none of which names the email, the map holds
    for it what it held before. *)
Theorem calls_leave_other_emails clock calls k w :
  Forall (fun call => target call <> Some k) calls ->
  userConnections (run clock calls w) !! k = userConnections w !! k.
Proof.
  intros Hcalls. revert w.
  induction Hcalls as [|call calls Hcall _ IH]; intros w; [done|].
  rewrite run_cons, IH. by apply exec_other_email.
Qed.

Lemma calls_leave_other_emails_witness :
  userConnections
    (run ms_clock [Remove (js "c@d.org"); Refresh (js "c@d.org");
                   Connect (js "c@d.org") (js "t2") None None; GetSummary]
         two_hour_world) !! alice
  = userConnections two_hour_world !! alice.
Proof.
  apply (calls_leave_other_emails ms_clock _ alice two_hour_world).
  repeat constructor; vm_compute; discriminate.
Defined.

Lemma exec_keeps_records clock call k w :
  is_Some (userConnections w !! k) ->
  is_Some (userConnections (exec clock call w) !! k).
Proof.
  intros Hk. rewrite exec_registry.
  destruct call as [e token refresh expiresIn|e|e|e|e| |n]; try done.
  - rewrite lookup_insert_is_Some. destruct (decide (e = k)); auto.
  - destruct (userConnections w !! e); [|done].
    destruct (falsy_opt_string _); [done|].
    rewrite lookup_insert_is_Some. destruct (decide (e = k)); auto.
  - destruct (userConnections w !! e); [|done].
    rewrite lookup_insert_is_Some. destruct (decide (e = k)); auto.
Qed.

(** X2. No call deletes a record: an email that has a record keeps one
    through any sequence of calls, so the set of emails with a record only
    grows and the number of records never goes down. *)
Theorem records_are_never_deleted clock calls w :
  (forall k, is_Some (userConnections w !! k) ->
             is_Some (userConnections (run clock calls w) !! k)) /\
  dom (userConnections w) ⊆ dom (userConnections (run clock calls w)) /\
  (size (userConnections w) <= size (userConnections (run clock calls w)))%nat.
Proof.
  assert (Hkeep : forall k, is_Some (userConnections w !! k) ->
                    is_Some (userConnections (run clock calls w) !! k)).
  { revert w. induction calls as [|call calls IH]; intros w k Hk; [done|].
    rewrite run_cons. apply IH. by apply exec_keeps_records. }
  assert (Hdom : dom (userConnections w)
                 ⊆ dom (userConnections (run clock calls w))).
  { intros k. rewrite !elem_of_dom. apply Hkeep. }
  split; [done|]. split; [done|].
  rewrite <- !size_dom. by apply subseteq_size.
Qed.

(** ** Connection ids *)

Lemma conn_id_truthy email t :
  falsy_string (js "conn_" ++ email ++ js "_" ++ js_of_int t) = false.
Proof. reflexivity. Qed.

Lemma connect_run clock email token refresh expiresIn w :
  connectUserGoogleAccount clock email token refresh expiresIn w
  = (js "conn_" ++ email ++ js "_" ++ js_of_int (clock (ticks w)),
     mkWorld (<[email := mkUserConnection
                           (js "conn_" ++ email ++ js "_"
                            ++ js_of_int (clock (ticks w)))
                           email token refresh
                           (clock (S (ticks w)) + lifetime expiresIn)
                           active]> (userConnections w))
             (S (S (ticks w)))).
Proof.
  unfold connectUserGoogleAccount, set_connection, Date_now, mbind, M_bind,
    mret, M_mret, lifetime. cbn [ticks userConnections].
  by destruct expiresIn as [n|]; [destruct (n =? 0)|].
Qed.

(** X3. The id that [connectUserGoogleAccount] returns is
    [conn_<email>_<time>] for the clock reading at the call, and a
    [getUserConnectionId] for the email right afterwards returns that very
    id (never [null]), whatever the state was before. *)
Theorem connect_then_get_id clock email token refresh expiresIn w :
  let r := connectUserGoogleAccount clock email token refresh expiresIn w in
  r.1 = js "conn_" ++ email ++ js "_" ++ js_of_int (clock (ticks w)) /\
  getUserConnectionId email r.2 = (Some r.1, r.2).
Proof.
  cbv zeta. rewrite connect_run. cbn [fst snd]. split; [done|].
  unfold getUserConnectionId, get_connection, mbind, M_bind, mret, M_mret.
  cbn [userConnections]. rewrite lookup_insert_eq.
  cbn [connectionId]. by rewrite conn_id_truthy.
Qed.

Lemma exec_ids_prefixed clock call w :
  ids_prefixed w -> ids_prefixed (exec clock call w).
Proof.
  unfold ids_prefixed. intros Hw. rewrite exec_registry.
  destruct call as [e token refresh expiresIn|e|e|e|e| |n]; try done.
  - apply map_Forall_insert_2; [|done].
    rewrite connect_run. by eexists.
  - destruct (userConnections w !! e) as [c|] eqn:Hc; [|done].
    destruct (falsy_opt_string _); [done|].
    apply map_Forall_insert_2; [|done]. apply (Hw _ _ Hc).
  - destruct (userConnections w !! e) as [c|] eqn:Hc; [|done].
    apply map_Forall_insert_2; [|done]. apply (Hw _ _ Hc).
Qed.

Lemma reachable_ids_prefixed clock w : reachable clock w -> ids_prefixed w.
Proof.
  induction 1 as [|call w _ IH].
  - apply map_Forall_empty.
  - by apply exec_ids_prefixed.
Qed.

(** X4. In every reachable state each record has an id of the form
    [conn_<its email>_<time>]; so [getUserConnectionId] returns [null]
    exactly for the emails without a record, returns the stored id
    otherwise, and never changes the state. *)
Theorem getUserConnectionId_null_iff_absent clock w email :
  reachable clock w ->
  ((getUserConnectionId email w).1 = None
   <-> userConnections w !! email = None) /\
  (forall c, userConnections w !! email = Some c ->
     (getUserConnectionId email w).1 = Some (connectionId c) /\
     exists t, connectionId c = js "conn_" ++ email ++ js "_" ++ js_of_int t) /\
  (getUserConnectionId email w).2 = w.
Proof.
  intros Hw. apply reachable_ids_prefixed in Hw.
  unfold getUserConnectionId, get_connection, mbind, M_bind, mret, M_mret.
  cbn [fst snd].
  destruct (userConnections w !! email) as [c|] eqn:Hc.
  - destruct (Hw _ _ Hc) as [t Ht]. rewrite Ht, conn_id_truthy.
    split; [done|]. split; [|done].
    intros c' Hc'. inversion Hc'; subst c'. rewrite Ht. split; [done|].
    by exists t.
  - done.
Qed.

Lemma getUserConnectionId_null_iff_absent_witness :
  (getUserConnectionId alice two_hour_world).1 = Some (js "conn_a@b.com_0") /\
  (getUserConnectionId (js "c@d.org") two_hour_world).1 = None.
Proof.
  assert (Hw : reachable ms_clock two_hour_world)
    by (apply reachable_exec, reachable_init).
  split.
  - destruct (getUserConnectionId_null_iff_absent ms_clock two_hour_world
                alice Hw) as (_ & Hsome & _).
    apply (Hsome (mkUserConnection (js "conn_a@b.com_0") alice (js "t1")
                    (Some (js "r1")) 7200001 active)).
    vm_compute; reflexivity.
  - destruct (getUserConnectionId_null_iff_absent ms_clock two_hour_world
                (js "c@d.org") Hw) as (Hnone & _).
    apply Hnone. vm_compute; reflexivity.
Defined.

(** ** How connect, refresh and remove compose with [hasUserConnection] *)

Lemma has_run_active clock email w c :
  userConnections w !! email = Some c -> status c = active ->
  (hasUserConnection clock email w).1
  = bool_decide (expiresAt c > clock (ticks w)).
Proof.
  intros Hc Hs. run_method. rewrite Hc.
  by destruct (decide (status c = active)).
Qed.

(** X5. After a connect the email has a usable connection until the clock
    passes the expiry, whatever record it had before (none, an expired one,
    a revoked one): [hasUserConnection] right afterwards is true exactly
    when the clock reading it takes is before the reading taken at the
    connect plus the lifetime, which is [expiresIn] seconds, or one hour
    when [expiresIn] is [undefined] or [0]. *)
Theorem connect_then_has clock email token refresh expiresIn w :
  let r := connectUserGoogleAccount clock email token refresh expiresIn w in
  (hasUserConnection clock email r.2).1
  = bool_decide (clock (S (ticks w)) + lifetime expiresIn
                 > clock (S (S (ticks w)))).
Proof.
  cbv zeta. rewrite connect_run. cbn [snd].
  erewrite has_run_active;
    [|by cbn [userConnections]; apply lookup_insert_eq|done].
  reflexivity.
Qed.

(** X6. A refresh brings an expired connection back: for a record with
    status active and a non-empty refresh token, whatever its expiry was,
    [hasUserConnection] right after the refresh is true exactly when the
    clock reading it takes is less than one hour after the reading of the
    refresh. *)
Theorem refresh_then_has clock email w c :
  userConnections w !! email = Some c ->
  status c = active ->
  falsy_opt_string (refreshToken c) = false ->
  (hasUserConnection clock email
     (refreshUserConnection clock email w).2).1
  = bool_decide (clock (ticks w) + 3600000 > clock (S (ticks w))).
Proof.
  intros Hc Hs Hf. rewrite (refresh_with_token clock email w c Hc Hf).
  cbn [snd].
  erewrite has_run_active;
    [|by cbn [userConnections]; apply lookup_insert_eq|done].
  reflexivity.
Qed.

(** The connection of [expired_world] expired at 10; at reading 20 it is
    not usable, and after a refresh it is. *)
Lemma refresh_then_has_witness :
  (hasUserConnection ms_clock alice expired_world).1 = false /\
  (hasUserConnection ms_clock alice
     (refreshUserConnection ms_clock alice expired_world).2).1 = true.
Proof.
  split; [vm_compute; reflexivity|].
  rewrite (refresh_then_has ms_clock alice expired_world
             (mkUserConnection (js "conn_a@b.com_0") alice (js "t1")
                (Some (js "r1")) 10 active));
    [vm_compute; reflexivity|vm_compute; reflexivity|reflexivity
    |reflexivity].
Defined.

(** X7. Revoking is idempotent, and its result does not tell whether the
    record was revoked already: a second [removeUserConnection] for the
    same email returns what the first returned (true when the email has a
    record, false when it has none) and leaves the state of the first. *)
Theorem remove_twice email w :
  removeUserConnection email (removeUserConnection email w).2
  = removeUserConnection email w.
Proof.
  unfold removeUserConnection, get_connection, set_connection, mbind,
    M_bind, mret, M_mret. cbn [fst snd].
  destruct (userConnections w !! email) as [c|] eqn:Hc; cbn [fst snd].
  - cbn [userConnections ticks]. rewrite lookup_insert_eq.
    cbn [fst snd userConnections ticks]. by rewrite insert_insert_eq.
  - by rewrite Hc.
Qed.

(** ** [addGoogleCalendarToolsForUser] *)

Lemma tool_id_run clock email name w :
  tool_id clock email name w
  = (js "tool_" ++ Server.toLowerCase name ++ js "_" ++ email ++ js "_"
     ++ js_of_int (clock (ticks w)),
     mkWorld (userConnections w) (S (ticks w))).
Proof. reflexivity. Qed.

Lemma forM_tool_ids clock email l w :
  userConnections (forM (tool_id clock email) l w).2 = userConnections w /\
  length (forM (tool_id clock email) l w).1 = length l /\
  forall i name, l !! i = Some name ->
    (forM (tool_id clock email) l w).1 !! i
    = Some (js "tool_" ++ Server.toLowerCase name ++ js "_" ++ email
            ++ js "_" ++ js_of_int (clock (ticks w + i)%nat)).
Proof.
  revert w. induction l as [|x l IH]; intros w; [done|].
  cbn [forM]. unfold mbind, M_bind, mret, M_mret.
  rewrite tool_id_run.
  specialize (IH (mkWorld (userConnections w) (S (ticks w)))).
  destruct (forM (tool_id clock email) l _) as [r w2].
  cbn [fst snd userConnections ticks] in *.
  destruct IH as (Hmap & Hlen & Hids).
  split; [done|]. split; [by cbn [length]; f_equal|].
  intros [|i] name Hname.
  - inversion Hname; subst. by rewrite Nat.add_0_r.
  - change (r !! i
            = Some (js "tool_" ++ Server.toLowerCase name ++ js "_" ++ email
                    ++ js "_" ++ js_of_int (clock (ticks w + S i)%nat))).
    rewrite (Hids i name Hname). by rewrite Nat.add_succ_r.
Qed.

Lemma getId_run email w c :
  userConnections w !! email = Some c ->
  getUserConnectionId email w
  = (if falsy_string (connectionId c) then None else Some (connectionId c),
     w).
Proof. intros Hc. run_method. by rewrite Hc. Qed.

Lemma add_tools_run clock email w :
  addGoogleCalendarToolsForUser clock email w
  = let (has, w1) := hasUserConnection clock email w in
    if negb has
    then (Throws (JsError
                    (js "No active Google Calendar connection for user: "
                     ++ email)), w1)
    else
      let (connectionId, w2) := getUserConnectionId email w1 in
      match connectionId with
      | None => (Throws (JsError (js "No connection ID found for user: "
                                  ++ email)), w2)
      | Some _ =>
          let (toolIds, w3) :=
            forM (tool_id clock email) GOOGLE_CALENDAR_TOOLS w2 in
          (Returns toolIds, w3)
      end.
Proof.
  unfold addGoogleCalendarToolsForUser. unfold mbind at 1, M_bind at 1.
  destruct (hasUserConnection clock email w) as [[] w1]; cbn [negb];
    [|done].
  unfold mbind at 1, M_bind at 1.
  destruct (getUserConnectionId email w1) as [[id|] w2]; [|done].
  reflexivity.
Qed.

(** X8. [addGoogleCalendarToolsForUser] never changes the map.  When
    [hasUserConnection] is false for the email it rejects with "No active
    Google Calendar connection for user: <email>".  In a reachable state
    where [hasUserConnection] is true it resolves to sixteen ids, one per
    tool of [GOOGLE_CALENDAR_TOOLS] and in their order, the i-th being
    [tool_<lower-cased tool name>_<email>_<clock reading>]; the other
    rejection, "No connection ID found", does not occur there. *)
Theorem add_tools_needs_usable_connection clock email w :
  let r := addGoogleCalendarToolsForUser clock email w in
  userConnections r.2 = userConnections w /\
  ((hasUserConnection clock email w).1 = false ->
   r.1 = Throws (JsError
                   (js "No active Google Calendar connection for user: "
                    ++ email))) /\
  (reachable clock w -> (hasUserConnection clock email w).1 = true ->
   exists ids,
     r.1 = Returns ids /\ length ids = 16%nat /\
     forall i name, GOOGLE_CALENDAR_TOOLS !! i = Some name ->
       ids !! i
       = Some (js "tool_" ++ Server.toLowerCase name ++ js "_" ++ email
               ++ js "_" ++ js_of_int (clock (S (ticks w) + i)%nat))).
Proof.
  cbv zeta. rewrite add_tools_run.
  pose proof (has_registry clock email w) as Hreg.
  assert (Hticks : (hasUserConnection clock email w).1 = true ->
                   ticks (hasUserConnection clock email w).2 = S (ticks w) /\
                   is_Some (userConnections w !! email)).
  { run_method. destruct (userConnections w !! email) as [c|]; [|done].
    by destruct (decide (status c = active)). }
  destruct (hasUserConnection clock email w) as [has w1].
  cbn [fst snd] in *. destruct has; cbn [negb]; [|done].
  destruct Hticks as [Hticks [c Hc]]; [done|].
  rewrite (getId_run email w1 c) by (by rewrite Hreg).
  destruct (forM_tool_ids clock email GOOGLE_CALENDAR_TOOLS w1)
    as (Hmap & Hlen & Hids).
  destruct (forM (tool_id clock email) GOOGLE_CALENDAR_TOOLS w1)
    as [ids w3].
  cbn [fst snd] in *.
  split; [|split; [done|]].
  - destruct (falsy_string (connectionId c)); cbn [snd]; congruence.
  - intros Hw _. apply reachable_ids_prefixed in Hw.
    destruct (Hw _ _ Hc) as [t Ht]. rewrite Ht, conn_id_truthy.
    exists ids. split; [done|]. split; [done|].
    intros i name Hname. rewrite (Hids i name Hname). by rewrite Hticks.
Qed.

Lemma add_tools_needs_usable_connection_witness :
  (addGoogleCalendarToolsForUser ms_clock alice revoked_world).1
  = Throws (JsError (js "No active Google Calendar connection for user: "
                     ++ alice)) /\
  exists ids,
    (addGoogleCalendarToolsForUser ms_clock alice two_hour_world).1
    = Returns ids /\ length ids = 16%nat.
Proof.
  split.
  - apply (proj1 (proj2 (add_tools_needs_usable_connection ms_clock alice
                           revoked_world))).
    vm_compute; reflexivity.
  - destruct (proj2 (proj2 (add_tools_needs_usable_connection ms_clock alice
                              two_hour_world)))
      as (ids & Hids & Hlen & _).
    + apply reachable_exec, reachable_init.
    + vm_compute; reflexivity.
    + exists ids. by split.
Defined.

(** ** [getConnections] and [testConnection] *)

Lemma map_outcome_returns {A B} (f : A -> Outcome B) l ys :
  map_outcome f l = Returns ys -> Forall2 (fun x y => f x = Returns y) l ys.
Proof.
  revert ys. induction l as [|x l IH]; intros ys; cbn [map_outcome].
  - intros [= <-]. constructor.
  - destruct (f x) as [y|t] eqn:Hx; [|done].
    destruct (map_outcome f l) as [r|t]; [|done].
    intros [= <-]. constructor; [done|]. by apply IH.
Qed.

Lemma map_outcome_throws {A B} (f : A -> Outcome B) l t :
  map_outcome f l = Throws t -> exists x, x ∈ l /\ f x = Throws t.
Proof.
  induction l as [|x l IH]; cbn [map_outcome]; [done|].
  destruct (f x) as [y|t'] eqn:Hx.
  - destruct (map_outcome f l) as [r|t'']; [done|].
    intros [= <-]. destruct IH as (x' & Hin & Hx'); [done|].
    exists x'. split; [by right|done].
  - intros [= <-]. exists x. split; [by left|done].
Qed.

(** X9. [getConnections] leaves the state alone and answers all or
    nothing.  When it resolves, the array has one element per record, with
    the id, email and status of the record, its expiry as a date text, and
    [hasRefreshToken] telling whether the refresh token is present and not
    empty.  When it rejects, some record has an expiry that cannot be
    written as a date, and the error is "Failed to fetch connections: "
    followed by the message of that failure; one such record is enough to
    make the listing fail for all. *)
Theorem getConnections_all_or_nothing toISOString w :
  let r := getConnections toISOString w in
  let cs := (map_to_list (userConnections w)).*2 in
  r.2 = w /\
  (forall infos, r.1 = Returns infos ->
     length infos = size (userConnections w) /\
     Forall2 (fun c i =>
                toISOString (expiresAt c) = Returns (info_expiresAt i) /\
                info_id i = connectionId c /\
                info_userEmail i = userEmail c /\
                info_status i = status c /\
                hasRefreshToken i
                = negb (falsy_opt_string (refreshToken c))) cs infos) /\
  (forall t, r.1 = Throws t ->
     exists c t', c ∈ cs /\ toISOString (expiresAt c) = Throws t' /\
                  t = JsError (js "Failed to fetch connections: "
                               ++ thrown_text t')) /\
  (forall c t', c ∈ cs -> toISOString (expiresAt c) = Throws t' ->
     exists t, r.1 = Throws t).
Proof.
  cbv zeta. unfold getConnections, connection_values, mbind, M_bind, mret,
    M_mret. cbn [fst snd].
  set (cs := (map_to_list (userConnections w)).*2).
  destruct (map_outcome (connection_info toISOString) cs) as [infos|t]
    eqn:Hmap.
  - apply map_outcome_returns in Hmap.
    split; [done|]. split; [|split; [done|]].
    + intros ? [= <-]. split.
      * rewrite <- (Forall2_length _ _ _ Hmap). unfold cs.
        by rewrite length_fmap, length_map_to_list.
      * eapply Forall2_impl; [exact Hmap|]. intros c i Hci.
        unfold connection_info in Hci.
        destruct (toISOString (expiresAt c)); [|done].
        by inversion Hci; subst.
    + intros c t' Hc Ht. exfalso.
      apply list_elem_of_lookup in Hc as [i Hi].
      destruct (Forall2_lookup_l _ _ _ _ _ Hmap Hi) as (y & _ & Hy).
      unfold connection_info in Hy. by rewrite Ht in Hy.
  - apply map_outcome_throws in Hmap as (c & Hc & Hthrow).
    split; [done|]. split; [done|]. split.
    + intros ? [= <-]. exists c, t. split; [done|]. split; [|done].
      unfold connection_info in Hthrow.
      destruct (toISOString (expiresAt c)); [done|]. by inversion Hthrow.
    + intros. by eexists.
Qed.

(** X10. The "user connections active" of [testConnection] counts every
    record of the map, the revoked and the expired ones too: when the date
    of the call can be written, the message gives the size of the map, and
    revoking a connection changes neither that number nor the report. *)
Theorem testConnection_counts_every_record clock toISOString email w stamp :
  toISOString (clock (ticks w)) = Returns stamp ->
  (testConnection clock toISOString w).1
  = Returns (mkTestResult true
               (js "Composio service is properly initialized and ready for connections. "
                ++ js_of_int (Z.of_nat (size (userConnections w)))
                ++ js " user connections active.")
               stamp) /\
  size (userConnections (removeUserConnection email w).2)
  = size (userConnections w) /\
  (testConnection clock toISOString (removeUserConnection email w).2).1
  = (testConnection clock toISOString w).1.
Proof.
  intros Hstamp.
  assert (Hrm : ticks (removeUserConnection email w).2 = ticks w /\
                size (userConnections (removeUserConnection email w).2)
                = size (userConnections w)).
  { run_method. destruct (userConnections w !! email) as [c|] eqn:Hc;
      [|done].
    split; [done|]. cbn [snd userConnections].
    by apply map_size_insert_Some. }
  destruct Hrm as [Hticks Hsize].
  unfold testConnection, Date_now. cbn [fst snd userConnections ticks].
  rewrite Hticks, Hsize, Hstamp. done.
Qed.

Lemma testConnection_counts_every_record_witness :
  (testConnection ms_clock sample_stamp revoked_world).1
  = Returns (mkTestResult true
               (js "Composio service is properly initialized and ready for connections. "
                ++ js "1" ++ js " user connections active.")
               (js "2")).
Proof.
  destruct (testConnection_counts_every_record ms_clock sample_stamp alice
              revoked_world (js "2")) as [Hreport _];
    [reflexivity|exact Hreport].
Defined.

(** ** Connections do not come back by themselves *)

Lemma has_false_iff_unusable clock email w :
  (hasUserConnection clock email w).1 = false <-> unusable clock email w.
Proof.
  unfold unusable. run_method.
  destruct (userConnections w !! email) as [c|]; [|done].
  destruct (decide (status c = active)) as [Ha|Hna]; simpl.
  - rewrite bool_decide_eq_false. split; [right; lia|].
    intros [?|?]; [done|lia].
  - split; [by left|done].
Qed.

Lemma filterM_ticks {A} (p : A -> M bool) (l : list A) :
  (forall x w, (ticks w <= ticks (p x w).2)%nat) ->
  forall w, (ticks w <= ticks (filterM p l w).2)%nat.
Proof.
  intros Hp. induction l as [|x l IH]; intros w; [done|].
  simpl. unfold mbind, M_bind.
  specialize (Hp x w). destruct (p x w) as [b w1].
  specialize (IH w1). destruct (filterM p l w1) as [r w2]. simpl in *. lia.
Qed.

Lemma exec_ticks clock call w : (ticks w <= ticks (exec clock call w))%nat.
Proof.
  destruct call as [e token refresh expiresIn|e|e|e|e| |n]; unfold exec.
  - rewrite connect_run. simpl. lia.
  - run_method. lia.
  - run_method. destruct (userConnections w !! e) as [c|]; [|done].
    destruct (decide (status c = active)); simpl; lia.
  - run_method. destruct (userConnections w !! e) as [c|]; [|done].
    destruct (falsy_opt_string _); simpl; lia.
  - run_method. by destruct (userConnections w !! e).
  - unfold getUserConnectionsSummary, connection_values, mbind, M_bind.
    set (cs := (map_to_list (userConnections w)).*2).
    assert (Hp : forall q, q = counts_active clock \/ q = counts_expired clock ->
                   forall c w0, (ticks w0 <= ticks (q c w0).2)%nat).
    { intros q [->| ->] c w0; run_method;
        destruct (decide (status c = active)); simpl; lia. }
    pose proof (filterM_ticks (counts_active clock) cs
                  (Hp _ (or_introl eq_refl)) w) as H1.
    destruct (filterM (counts_active clock) cs w) as [a w1].
    pose proof (filterM_ticks (counts_expired clock) cs
                  (Hp _ (or_intror eq_refl)) w1) as H2.
    destruct (filterM (counts_expired clock) cs w1) as [e w2].
    simpl in *. lia.
  - simpl. lia.
Qed.

Lemma exec_keeps_unusable clock email call w :
  (forall i j, (i <= j)%nat -> clock i <= clock j) ->
  ~ revives email call -> unusable clock email w ->
  unusable clock email (exec clock call w).
Proof.
  intros Hmono Hcall Hw. unfold unusable in *.
  pose proof (Hmono _ _ (exec_ticks clock call w)) as Hclock.
  rewrite exec_registry.
  destruct call as [e token refresh expiresIn|e|e|e|e| |n]; simpl in Hcall.
  - rewrite lookup_insert_ne by done.
    destruct (userConnections w !! email); [|done].
    destruct Hw; [by left|right; lia].
  - destruct (userConnections w !! email); [|done].
    destruct Hw; [by left|right; lia].
  - destruct (userConnections w !! email); [|done].
    destruct Hw; [by left|right; lia].
  - destruct (userConnections w !! e) as [c'|] eqn:Hc'.
    + destruct (falsy_opt_string _).
      * destruct (userConnections w !! email); [|done].
        destruct Hw; [by left|right; lia].
      * rewrite lookup_insert_ne by done.
        destruct (userConnections w !! email); [|done].
        destruct Hw; [by left|right; lia].
    + destruct (userConnections w !! email); [|done].
      destruct Hw; [by left|right; lia].
  - destruct (userConnections w !! e) as [c'|] eqn:Hc'.
    + destruct (decide (e = email)) as [->|Hne].
      * rewrite lookup_insert_eq. by left.
      * rewrite lookup_insert_ne by done.
        destruct (userConnections w !! email); [|done].
        destruct Hw; [by left|right; lia].
    + destruct (userConnections w !! email); [|done].
      destruct Hw; [by left|right; lia].
  - destruct (userConnections w !! email); [|done].
    destruct Hw; [by left|right; lia].
  - destruct (userConnections w !! email); [|done].
    destruct Hw; [by left|right; lia].
Qed.

(** X20. With a clock that never goes back, only a connect or a refresh
    for the email makes its connection usable: if [hasUserConnection] is
    false for an email, it is false again after any sequence of calls that
    has no connect and no refresh for that email. *)
Theorem only_connect_or_refresh_revive clock email calls w :
  (forall i j, (i <= j)%nat -> clock i <= clock j) ->
  Forall (fun call => ~ revives email call) calls ->
  (hasUserConnection clock email w).1 = false ->
  (hasUserConnection clock email (run clock calls w)).1 = false.
Proof.
  intros Hmono Hcalls. rewrite !has_false_iff_unusable. revert w.
  induction Hcalls as [|call calls Hcall _ IH]; intros w Hw; [done|].
  rewrite run_cons. apply IH. by apply exec_keeps_unusable.
Qed.

(** The connection of [expired_world] stays unusable through reads, a
    summary and a revocation. *)
Lemma only_connect_or_refresh_revive_witness :
  (hasUserConnection ms_clock alice
     (run ms_clock [Has alice; GetSummary; Other 3; Remove alice]
          expired_world)).1 = false.
Proof.
  apply (only_connect_or_refresh_revive ms_clock alice).
  - intros i j Hij. unfold ms_clock. lia.
  - repeat constructor; vm_compute; tauto.
  - vm_compute; reflexivity.
Defined.

(** X22. [refreshUserConnection] returns false exactly when the email has
    no record or its record has no refresh token (or an empty one), and
    then it changes nothing and does not read the clock.  When it returns
    true it read the clock once and replaced the record of that email by
    one that differs in [expiresAt] alone, which is 3600000 ms after that
    reading. *)
Theorem refresh_changes_only_expiry clock email w :
  let r := refreshUserConnection clock email w in
  (r.1 = false <->
   userConnections w !! email = None \/
   exists c, userConnections w !! email = Some c /\
             falsy_opt_string (refreshToken c) = true) /\
  (r.1 = false -> r.2 = w) /\
  (r.1 = true ->
   exists c,
     userConnections w !! email = Some c /\
     ticks r.2 = S (ticks w) /\
     userConnections r.2
     = <[email := mkUserConnection (connectionId c) (userEmail c)
                    (accessToken c) (refreshToken c)
                    (clock (ticks w) + 3600000) (status c)]>
         (userConnections w)).
Proof.
  cbv zeta.
  destruct (userConnections w !! email) as [c|] eqn:Hc.
  - destruct (falsy_opt_string (refreshToken c)) eqn:Hf.
    + run_method. rewrite Hc, Hf. simpl. split; [|done].
      split; [|done]. intros _. right. by exists c.
    + rewrite (RegistryFacts.refresh_with_token clock email w c Hc Hf).
      simpl. split; [|split; [done|]].
      * split; [done|]. intros [|(c' & [= <-] & Hf')]; congruence.
      * intros _. by exists c.
  - run_method. rewrite Hc. simpl. split; [|done]. split; [|done].
    intros _. by left.
Qed.

End ServiceFacts.

(** * Further properties of the API server *)

Module RoutesFacts.
Import Server ServerRoutes ServerFacts.

Ltac run_routes :=
  unfold setup_connection, test_connection, send_message,
    checkConnectionStatus, getUserTools, setupUserConnectionIfNotExists,
    try_catch, throw, request, llm, timestamp_now, get_connection,
    get_entity, set_connection, set_entity, mbind, M_bind, mret, M_mret;
  cbn [fst snd userConnections userEntities ticks requests llmCalls].

(** ** Setting up a connection *)

Lemma setup_run P email w :
  setupUserConnectionIfNotExists P email w
  = let e := entityIdOf email in
    let ents := <[email := e]> (userEntities w) in
    match getEntity P (requests w) e with
    | Throws t =>
        (Throws t,
         mkWorld (userConnections w) ents (ticks w) (S (requests w))
                 (llmCalls w))
    | Returns _ =>
        match getConnection P (S (requests w)) e with
        | Returns c =>
            (Returns c,
             mkWorld (<[email := mkConnectionData e c None active
                                  (Some (toISOString P (clock P (ticks w))))
                                  None]> (userConnections w))
                     ents (S (ticks w)) (S (S (requests w))) (llmCalls w))
        | Throws _ =>
            match initiateConnection P (S (S (requests w))) e with
            | Returns n =>
                (Returns n.1,
                 mkWorld (<[email := mkConnectionData e n.1 n.2 pending None
                                      (Some (toISOString P
                                               (clock P (ticks w))))]>
                            (userConnections w))
                         ents (S (ticks w)) (S (S (S (requests w))))
                         (llmCalls w))
            | Throws t =>
                (Throws t,
                 mkWorld (userConnections w) ents (ticks w)
                         (S (S (S (requests w)))) (llmCalls w))
            end
        end
    end.
Proof.
  cbv zeta. run_server.
  destruct (getEntity P (requests w) (entityIdOf email)); simpl; [|done].
  destruct (getConnection P (S (requests w)) (entityIdOf email)); simpl;
    [done|].
  by destruct (initiateConnection P (S (S (requests w))) (entityIdOf email)).
Qed.

Lemma setup_connection_run P email w :
  falsy_string email = false ->
  setup_connection P (Some email) w
  = match setupUserConnectionIfNotExists P email w with
    | (Returns _, w1) =>
        let d := userConnections w1 !! email in
        (Returns (SetupSuccess
                    (mkSetupReply email (entityId <$> d) (connectionId <$> d)
                       (d ≫= redirectUrl) (status <$> d)
                       (if decide (status <$> d = Some pending)
                        then js "Please complete Google Calendar authentication using the redirect URL"
                        else js "Google Calendar connection is active for "
                             ++ email))
                    (toISOString P (clock P (ticks w1)))),
         mkWorld (userConnections w1) (userEntities w1) (S (ticks w1))
                 (requests w1) (llmCalls w1))
    | (Throws err, w1) =>
        (Returns (SetupFailure 500 (thrown_text err)
                    (toISOString P (clock P (ticks w1)))),
         mkWorld (userConnections w1) (userEntities w1) (S (ticks w1))
                 (requests w1) (llmCalls w1))
    end.
Proof.
  intros He. unfold setup_connection, try_catch.
  cbn [falsy_opt_string]. rewrite He.
  cbv beta iota zeta delta [default from_option id].
  rewrite run_bind.
  by destruct (setupUserConnectionIfNotExists P email w) as [[c|t] w1].
Qed.

(** X11. [POST /api/composio/setup-connection] with an email always
    answers, records the entity id of the email, and calls no LLM.  Either
    it answers with success: then the email has a connection record naming
    that entity, which is active with no redirect URL when the platform had
    a connection, or pending with the redirect URL of the connection the
    platform initiated; the answer carries the fields of that record, and
    the records of other emails are untouched.  Or it answers with status
    500: then the platform threw, and the connection records are all as
    before (the entity stays recorded). *)
Theorem setup_connection_outcomes P email w :
  falsy_string email = false ->
  let e := entityIdOf email in
  let r := setup_connection P (Some email) w in
  userEntities r.2 = <[email := e]> (userEntities w) /\
  llmCalls r.2 = llmCalls w /\
  ((exists reply t d,
      r.1 = Returns (SetupSuccess reply t) /\
      userConnections r.2 = <[email := d]> (userConnections w) /\
      entityId d = e /\
      (status d = active /\ redirectUrl d = None /\
       getConnection P (S (requests w)) e = Returns (connectionId d)
       \/
       status d = pending /\
       initiateConnection P (S (S (requests w))) e
       = Returns (connectionId d, redirectUrl d)) /\
      setup_status reply = Some (status d) /\
      setup_entityId reply = Some e /\
      setup_connectionId reply = Some (connectionId d) /\
      setup_redirectUrl reply = redirectUrl d)
   \/
   (exists t stamp,
      r.1 = Returns (SetupFailure 500 (thrown_text t) stamp) /\
      userConnections r.2 = userConnections w /\
      (getEntity P (requests w) e = Throws t \/
       initiateConnection P (S (S (requests w))) e = Throws t))).
Proof.
  intros He. cbv zeta. rewrite (setup_connection_run P email w He).
  rewrite setup_run. cbv zeta.
  destruct (getEntity P (requests w) (entityIdOf email)) as [[]|t] eqn:Hg.
  - destruct (getConnection P (S (requests w)) (entityIdOf email))
      as [c|t] eqn:Hc.
    + cbn [fst snd userConnections userEntities llmCalls].
      split; [done|]. split; [done|]. left.
      rewrite lookup_insert_eq. do 3 eexists.
      split; [reflexivity|]. split; [reflexivity|].
      cbn. split; [done|]. split; [by left|]. done.
    + destruct (initiateConnection P (S (S (requests w))) (entityIdOf email))
        as [[cid url]|t'] eqn:Hi.
      * cbn [fst snd userConnections userEntities llmCalls].
        split; [done|]. split; [done|]. left.
        rewrite lookup_insert_eq. do 3 eexists.
        split; [reflexivity|]. split; [reflexivity|].
        cbn. split; [done|]. split; [by right|]. done.
      * cbn [fst snd userConnections userEntities llmCalls].
        split; [done|]. split; [done|]. right.
        do 2 eexists. split; [reflexivity|]. split; [done|]. by right.
  - cbn [fst snd userConnections userEntities llmCalls].
    split; [done|]. split; [done|]. right.
    do 2 eexists. split; [reflexivity|]. split; [done|]. by left.
Qed.

(** On [fresh_platform], a first setup for [a@b.com] records the entity
    [a_b_com] and calls no LLM. *)
Lemma setup_connection_outcomes_witness :
  userEntities (setup_connection fresh_platform (Some (js "a@b.com")) init).2
  = <[js "a@b.com" := entityIdOf (js "a@b.com")]> (userEntities init) /\
  llmCalls (setup_connection fresh_platform (Some (js "a@b.com")) init).2
  = llmCalls init.
Proof.
  destruct (setup_connection_outcomes fresh_platform (js "a@b.com") init)
    as (Hentity & Hllm & _); [reflexivity|].
  by split.
Defined.

(** X12. A request without [userEmail] (absent or empty) is refused by the
    three POST routes with status 400, and a chat request without [message]
    likewise; such a request reaches neither the platform nor the LLM and
    leaves both maps as they were. *)
Theorem requests_without_email_are_refused P message email w :
  falsy_opt_string email = true \/ falsy_opt_string message = true ->
  let quiet (w' : World) :=
    userConnections w' = userConnections w /\
    userEntities w' = userEntities w /\
    requests w' = requests w /\ llmCalls w' = llmCalls w in
  (exists text stamp,
     (send_message P message email w).1 = Returns (Failure 400 text stamp)) /\
  quiet (send_message P message email w).2 /\
  (falsy_opt_string email = true ->
   (setup_connection P email w).1
   = Returns (SetupFailure 400 (js "userEmail is required")
                (toISOString P (clock P (ticks w)))) /\
   quiet (setup_connection P email w).2 /\
   (test_connection P email w).1
   = Returns (TestRejected 400
                (js "userEmail is required for connection test")
                (toISOString P (clock P (ticks w)))) /\
   quiet (test_connection P email w).2).
Proof.
  intros Hmissing. cbv zeta. split; [|split].
  - unfold send_message, try_catch.
    destruct (falsy_opt_string message); [by do 2 eexists|].
    destruct Hmissing as [->|?]; [|done]. by do 2 eexists.
  - unfold send_message, try_catch.
    destruct (falsy_opt_string message); [done|].
    by destruct Hmissing as [->|?].
  - intros He. unfold setup_connection, test_connection, try_catch.
    by rewrite He.
Qed.

Lemma requests_without_email_are_refused_witness :
  (setup_connection fresh_platform (Some []) init).1
  = Returns (SetupFailure 400 (js "userEmail is required") (js "0")).
Proof.
  destruct (requests_without_email_are_refused fresh_platform None (Some [])
              init) as (_ & _ & Hsetup); [by left|].
  destruct Hsetup as (Hanswer & _); [reflexivity|exact Hanswer].
Defined.

(** ** Emails that share an entity *)

Lemma entityIdOf_replace email :
  entityIdOf (replace_non_alnum email) = entityIdOf email.
Proof.
  unfold entityIdOf, toLowerCase, replace_non_alnum.
  induction email as [|u email IH]; [done|].
  cbn [map]. rewrite IH. f_equal.
  destruct (is_alnum u) eqn:Hu; [by rewrite Hu|done].
Qed.

Lemma replace_changes_punctuation email :
  has_punctuation email -> replace_non_alnum email <> email.
Proof.
  unfold has_punctuation, replace_non_alnum.
  induction 1 as [u email [Hu Hne]|u email _ IH]; cbn [map].
  - rewrite Hu. congruence.
  - intros [= _ Heq]. by apply IH.
Qed.

(** X13. Distinct emails can share an entity, and then they share the
    connection.  For an email with a character that is neither a letter, a
    digit nor an underscore (the [@] of an address is one), the email with
    those characters replaced by underscores is a different email with the
    same entity id, and so is the entity id itself.  For two
    emails with the same entity id, [setupUserConnectionIfNotExists] from
    the same state asks the platform the same questions and returns the
    same connection, or throws the same error. *)
Theorem emails_share_entities P email w :
  has_punctuation email ->
  let twin := replace_non_alnum email in
  twin <> email /\
  entityIdOf twin = entityIdOf email /\
  entityIdOf (entityIdOf email) = entityIdOf email /\
  (forall other, entityIdOf other = entityIdOf email ->
     (setupUserConnectionIfNotExists P other w).1
     = (setupUserConnectionIfNotExists P email w).1).
Proof.
  intros Hp. cbv zeta.
  split; [by apply replace_changes_punctuation|].
  split; [apply entityIdOf_replace|]. split.
  - pose proof (entityIdOf_units email) as Hunits.
    unfold entityIdOf at 1. unfold toLowerCase at 1, replace_non_alnum.
    induction Hunits as [|u l Hu _ IH]; [done|].
    cbn [map]. rewrite IH. f_equal.
    assert (Ha : is_alnum u = true \/ u = 95%N) by units_to_lia.
    pose proof (lower_of_entity_unit u Hu) as Hup.
    destruct Ha as [Ha| ->]; [by rewrite Ha, Hup|done].
  - intros other Hother. rewrite !setup_run. cbv zeta. rewrite Hother.
    destruct (getEntity P (requests w) (entityIdOf email)); [|done].
    destruct (getConnection P (S (requests w)) (entityIdOf email)); [done|].
    by destruct (initiateConnection P (S (S (requests w)))
                   (entityIdOf email)).
Qed.

(** [a.b@x.com] and [a_b_x_com] are two emails with the entity
    [a_b_x_com]. *)
Lemma emails_share_entities_witness :
  replace_non_alnum (js "a.b@x.com") <> js "a.b@x.com" /\
  entityIdOf (replace_non_alnum (js "a.b@x.com"))
  = entityIdOf (js "a.b@x.com").
Proof.
  destruct (emails_share_entities fresh_platform (js "a.b@x.com") init)
    as (Hne & Heq & _); [|by split].
  apply Exists_cons_tl, Exists_cons_hd. vm_compute. split; [done|].
  discriminate.
Defined.

(** ** Checking a connection *)

Lemma check_run P email w :
  checkConnectionStatus P email w
  = match userConnections w !! email, userEntities w !! email with
    | Some d, Some e =>
        if falsy_string e
        then (Returns (mkConnectionStatus not_found
                         (Some (js "No connection found")) None), w)
        else
          let w1 := mkWorld (userConnections w) (userEntities w) (ticks w)
                            (S (requests w)) (llmCalls w) in
          match getTools P (requests w) e with
          | Returns tools =>
              if has_tools tools
              then (Returns (mkConnectionStatus active
                               (Some (js "Connection is active"))
                               (Some (length (default [] tools)))),
                    mkWorld (<[email := with_status d active]>
                               (userConnections w))
                            (userEntities w) (ticks w) (S (requests w))
                            (llmCalls w))
              else (Returns (mkConnectionStatus pending
                               (Some (js "Connection pending authentication"))
                               None), w1)
          | Throws t =>
              match error_message t with
              | Returns m => (Returns (mkConnectionStatus error m None), w1)
              | Throws t' => (Throws t', w1)
              end
          end
    | _, _ =>
        (Returns (mkConnectionStatus not_found
                    (Some (js "No connection found")) None), w)
    end.
Proof.
  cbv zeta. run_server.
  destruct (userConnections w !! email) as [d|]; simpl; [|done].
  destruct (userEntities w !! email) as [e|] eqn:He; simpl; [|done].
  destruct (falsy_string e) eqn:Hf; simpl; [done|].
  rewrite He, Hf. simpl.
  destruct (getTools P (requests w) e) as [tools|t]; simpl;
    [|by destruct (error_message t)].
  by destruct (has_tools tools).
Qed.

Lemma check_only_promotes_aux P email w :
  userEntities (checkConnectionStatus P email w).2 = userEntities w /\
  (userConnections (checkConnectionStatus P email w).2 = userConnections w
   \/
   exists d, userConnections w !! email = Some d /\
     userConnections (checkConnectionStatus P email w).2
     = <[email := with_status d active]> (userConnections w)).
Proof.
  rewrite check_run. cbv zeta.
  destruct (userConnections w !! email) as [d|]; [|by split; [|left]].
  destruct (userEntities w !! email) as [e|]; [|by split; [|left]].
  destruct (falsy_string e); [by split; [|left]|].
  destruct (getTools P (requests w) e) as [tools|t];
    [|by destruct (error_message t); split; [|left| |left]].
  destruct (has_tools tools); (split; [done|]).
  - right. by exists d.
  - by left.
Qed.

(** X14. [checkConnectionStatus] never touches the entity map and makes at
    most one request to the platform.  It throws exactly when the email has
    a connection record and an entity and the request for its tools is
    rejected with [null] or [undefined]: reading [error.message] in the
    [catch] then fails, the [TypeError] of that read is what the caller
    gets, and the connection map is as it was.  In every other case it
    returns a status: [not_found] without a request and without a change;
    [error] with the message of the rejection, which is [undefined] for a
    rejection that has none.  It changes the connection map only when it
    answers [active], and then only by setting the status of the record of
    that email to active.  So when it answers [pending] or [error] for a
    record that is stored as active, the stored status stays active. *)
Theorem check_only_promotes P email w :
  userEntities (checkConnectionStatus P email w).2 = userEntities w /\
  (requests w <= requests (checkConnectionStatus P email w).2
   <= S (requests w))%nat /\
  (forall t,
     (checkConnectionStatus P email w).1 = Throws t <->
     exists d e u,
       userConnections w !! email = Some d /\
       userEntities w !! email = Some e /\ falsy_string e = false /\
       getTools P (requests w) e = Throws (Nullish u) /\
       t = cannot_read_message u) /\
  (forall t,
     (checkConnectionStatus P email w).1 = Throws t ->
     userConnections (checkConnectionStatus P email w).2
     = userConnections w /\
     requests (checkConnectionStatus P email w).2 = S (requests w)) /\
  (forall s,
     (checkConnectionStatus P email w).1 = Returns s ->
     (cs_status s = not_found ->
      checkConnectionStatus P email w = (Returns s, w)) /\
     (cs_status s = error ->
      exists e t, userEntities w !! email = Some e /\
                  getTools P (requests w) e = Throws t /\
                  error_message t = Returns (cs_message s)) /\
     (cs_status s <> active ->
      userConnections (checkConnectionStatus P email w).2
      = userConnections w) /\
     (cs_status s = active ->
      exists d, userConnections w !! email = Some d /\
                userConnections (checkConnectionStatus P email w).2
                = <[email := with_status d active]> (userConnections w))).
Proof.
  rewrite check_run. cbv zeta.
  destruct (userConnections w !! email) as [d|] eqn:Hd.
  2: { cbn. split; [done|]. split; [lia|]. split; [|split].
       - intros t. split; [done|]. by intros (? & ? & ? & [=] & _).
       - done.
       - intros s [= <-]. cbn. by repeat split. }
  destruct (userEntities w !! email) as [e|] eqn:He.
  2: { cbn. split; [done|]. split; [lia|]. split; [|split].
       - intros t. split; [done|]. by intros (? & ? & ? & _ & [=] & _).
       - done.
       - intros s [= <-]. cbn. by repeat split. }
  destruct (falsy_string e) eqn:Hf.
  { cbn. split; [done|]. split; [lia|]. split; [|split].
    - intros t. split; [done|].
      intros (? & ? & ? & _ & [= <-] & ? & _). congruence.
    - done.
    - intros s [= <-]. cbn. by repeat split. }
  destruct (getTools P (requests w) e) as [tools|t] eqn:Ht.
  - destruct (has_tools tools); cbn; (split; [done|]); (split; [lia|]);
      (split; [|split]).
    + intros t. split; [done|].
      intros (? & ? & ? & _ & [= <-] & _ & ? & _). congruence.
    + done.
    + intros s [= <-]. cbn. repeat split; try done. intros _. by exists d.
    + intros t. split; [done|].
      intros (? & ? & ? & _ & [= <-] & _ & ? & _). congruence.
    + done.
    + intros s [= <-]. cbn. by repeat split.
  - destruct t as [m| |u]; cbn; (split; [done|]); (split; [lia|]);
      (split; [|split]).
    + intros t. split; [done|].
      intros (? & ? & ? & _ & [= <-] & _ & ? & _). congruence.
    + done.
    + intros s [= <-]. cbn. repeat split; try done.
      intros _. by exists e, (JsError m).
    + intros t. split; [done|].
      intros (? & ? & ? & _ & [= <-] & _ & ? & _). congruence.
    + done.
    + intros s [= <-]. cbn. repeat split; try done.
      intros _. by exists e, NotAnError.
    + intros t. split.
      * intros [= <-]. by exists d, e, u.
      * intros (? & ? & ? & _ & [= <-] & _ & Hu & ->). congruence.
    + done.
    + done.
Qed.

(** ** The invariant of reachable states *)

Lemma entityIdOf_truthy email :
  falsy_string email = false -> falsy_string (entityIdOf email) = false.
Proof. by destruct email. Qed.

Lemma consistent_same w w' :
  userConnections w' = userConnections w ->
  userEntities w' = userEntities w -> consistent w -> consistent w'.
Proof. unfold consistent. by intros -> ->. Qed.

Lemma consistent_promote w w' email d :
  userConnections w !! email = Some d ->
  userConnections w' = <[email := with_status d active]> (userConnections w) ->
  userEntities w' = userEntities w -> consistent w -> consistent w'.
Proof.
  unfold consistent. intros Hd -> -> [Hents Hconns]. split; [done|].
  apply map_Forall_insert_2; [|done].
  destruct (Hconns _ _ Hd) as (Hid & Hent & _). cbn. auto.
Qed.

Lemma consistent_entity w w' email :
  falsy_string email = false ->
  userConnections w' = userConnections w ->
  userEntities w' = <[email := entityIdOf email]> (userEntities w) ->
  consistent w -> consistent w'.
Proof.
  unfold consistent. intros He -> -> [Hents Hconns]. split.
  - by apply map_Forall_insert_2.
  - intros k d Hd. destruct (Hconns _ _ Hd) as (Hid & Hent & Hst).
    split; [done|]. split; [|done].
    destruct (decide (email = k)) as [->|Hne].
    + apply lookup_insert_eq.
    + by rewrite lookup_insert_ne.
Qed.

Lemma consistent_setup w w' email d :
  falsy_string email = false ->
  entityId d = entityIdOf email ->
  status d = active \/ status d = pending ->
  userConnections w' = <[email := d]> (userConnections w) ->
  userEntities w' = <[email := entityIdOf email]> (userEntities w) ->
  consistent w -> consistent w'.
Proof.
  intros He Hid Hst Hc Hents Hw.
  pose proof (consistent_entity w
                (mkWorld (userConnections w) (userEntities w') 0 0 0) email
                He eq_refl Hents Hw) as [Hents' Hconns'].
  cbn [userConnections userEntities] in *.
  unfold consistent. rewrite Hc. split; [done|].
  apply map_Forall_insert_2; [|done].
  split; [done|]. split; [|done]. rewrite Hents. apply lookup_insert_eq.
Qed.

Lemma send_maps P message email w :
  userEntities (send_message P message email w).2 = userEntities w /\
  (userConnections (send_message P message email w).2 = userConnections w \/
   exists e d, userConnections w !! e = Some d /\
     userConnections (send_message P message email w).2
     = <[e := with_status d active]> (userConnections w)).
Proof.
  unfold send_message, try_catch.
  destruct (falsy_opt_string message); [by split; [|left]|].
  destruct (falsy_opt_string email) eqn:He; [by split; [|left]|].
  destruct email as [e|]; [|done].
  cbv beta iota zeta delta [default from_option id].
  rewrite run_bind.
  destruct (check_only_promotes_aux P e w) as (Hents & Hconns).
  destruct (checkConnectionStatus P e w) as [o w1]. cbn [fst snd] in *.
  assert (Hrest : forall w2,
            userEntities w2 = userEntities w1 ->
            userConnections w2 = userConnections w1 ->
            userEntities w2 = userEntities w /\
            (userConnections w2 = userConnections w \/
             exists e d, userConnections w !! e = Some d /\
               userConnections w2
               = <[e := with_status d active]> (userConnections w))).
  { intros w2 -> ->. split; [done|].
    destruct Hconns as [->|(d & Hd & ->)]; [by left|]. right. eauto. }
  destruct o as [s|t]; [|by run_server; apply Hrest].
  destruct (cs_status s); run_server; try (by apply Hrest).
  destruct (userEntities w1 !! e) as [ent|]; simpl; [|by apply Hrest].
  destruct (falsy_string ent); simpl; [by apply Hrest|].
  destruct (getTools P (requests w1) ent); simpl; [|by apply Hrest].
  destruct (generateText P (llmCalls w1) true); simpl; [|by apply Hrest].
  destruct (generateText P (S (llmCalls w1)) false); simpl; by apply Hrest.
Qed.

Lemma test_connection_run P email w :
  falsy_string email = false ->
  test_connection P (Some email) w
  = match checkConnectionStatus P email w with
    | (Returns s, w1) =>
        if decide (cs_status s = active)
        then
          (Returns (TestPassed
                      (mkTestReport
                         (js "Connection test successful for " ++ email)
                         email (userEntities w1 !! email)
                         (connectionId <$> userConnections w1 !! email)
                         (cs_status s) (default 0%nat (toolsAvailable s))
                         features (toISOString P (clock P (ticks w1))))
                      (toISOString P (clock P (S (ticks w1))))),
           mkWorld (userConnections w1) (userEntities w1) (S (S (ticks w1)))
                   (requests w1) (llmCalls w1))
        else
          (Returns (TestFailed
                      (js "Connection test failed for " ++ email ++ js ": "
                       ++ default (js "undefined") (cs_message s))
                      email (userConnections w1 !! email) (cs_status s)
                      (toISOString P (clock P (ticks w1)))),
           mkWorld (userConnections w1) (userEntities w1) (S (ticks w1))
                   (requests w1) (llmCalls w1))
    | (Throws err, w1) =>
        (Returns (TestRejected 500 (thrown_text err)
                    (toISOString P (clock P (ticks w1)))),
         mkWorld (userConnections w1) (userEntities w1) (S (ticks w1))
                 (requests w1) (llmCalls w1))
    end.
Proof.
  intros He. unfold test_connection, try_catch.
  cbn [falsy_opt_string]. rewrite He.
  cbv beta iota zeta delta [default from_option id].
  rewrite run_bind.
  destruct (checkConnectionStatus P email w) as [[s|t] w1]; [|done].
  run_server. by destruct (decide (cs_status s = active)).
Qed.

Lemma exec_consistent P call w : consistent w -> consistent (exec P call w).
Proof.
  intros Hw. destruct call as [email|message email|email|n]; unfold exec.
  - destruct (falsy_opt_string email) eqn:He.
    + eapply consistent_same; [| |exact Hw];
        unfold setup_connection, try_catch; by rewrite He.
    + destruct email as [e|]; [|done]. cbn [falsy_opt_string] in He.
      rewrite (setup_connection_run P e w He), setup_run. cbv zeta.
      destruct (getEntity P (requests w) (entityIdOf e)) as [[]|t].
      * destruct (getConnection P (S (requests w)) (entityIdOf e)) as [c|t].
        -- eapply (consistent_setup w _ e);
             [done| | |reflexivity|reflexivity|exact Hw]; [done|by left].
        -- destruct (initiateConnection P (S (S (requests w)))
                       (entityIdOf e)) as [[cid url]|t'].
           ++ eapply (consistent_setup w _ e);
                [done| | |reflexivity|reflexivity|exact Hw];
                [done|by right].
           ++ by eapply (consistent_entity w _ e); [done| | |exact Hw].
      * by eapply (consistent_entity w _ e); [done| | |exact Hw].
  - destruct (send_maps P message email w) as [Hents [Hc|(e & d & Hd & Hc)]].
    + by eapply consistent_same.
    + by eapply consistent_promote.
  - destruct (falsy_opt_string email) eqn:He.
    + eapply consistent_same; [| |exact Hw];
        unfold test_connection, try_catch; by rewrite He.
    + destruct email as [e|]; [|done]. cbn [falsy_opt_string] in He.
      rewrite (test_connection_run P e w He).
      destruct (check_only_promotes_aux P e w) as (Hents & Hconns).
      destruct (checkConnectionStatus P e w) as [[s|t] w1];
        cbn [fst snd] in *;
        destruct Hconns as [Hc|(d & Hd & Hc)];
        try destruct (decide (cs_status s = active)); cbn [snd];
        first [by eapply consistent_same
              |by eapply (consistent_promote w _ e d)].
  - by eapply consistent_same.
Qed.

Lemma reachable_consistent P w : reachable P w -> consistent w.
Proof.
  induction 1 as [|call w _ IH].
  - split; apply map_Forall_empty.
  - by apply exec_consistent.
Qed.

(** X15. In every state reachable through the routes the two maps agree:
    the entity recorded for an email is the entity id of that email, and
    every connection record belongs to a non-empty email that has its
    entity recorded, names that entity, and is active or pending.  So
    [checkConnectionStatus] answers [not_found] exactly for the emails
    without a connection record, and [getUserTools] does not fail with "No
    entity found" for an email that has one. *)
Theorem reachable_maps_agree P w email :
  reachable P w ->
  (forall e, userEntities w !! email = Some e -> e = entityIdOf email) /\
  (forall d, userConnections w !! email = Some d ->
     falsy_string email = false /\
     entityId d = entityIdOf email /\
     userEntities w !! email = Some (entityIdOf email) /\
     (status d = active \/ status d = pending) /\
     getUserTools P email w
     = (getTools P (requests w) (entityIdOf email),
        mkWorld (userConnections w) (userEntities w) (ticks w)
                (S (requests w)) (llmCalls w))) /\
  (forall s, (checkConnectionStatus P email w).1 = Returns s ->
     (cs_status s = not_found <-> userConnections w !! email = None)).
Proof.
  intros Hw. apply reachable_consistent in Hw as [Hents Hconns].
  split; [|split].
  - intros e He. by destruct (Hents _ _ He).
  - intros d Hd. destruct (Hconns _ _ Hd) as (Hid & Hent & Hst).
    destruct (Hents _ _ Hent) as [_ Hemail].
    split; [done|]. split; [done|]. split; [done|]. split; [done|].
    run_server. rewrite Hent. simpl.
    by rewrite (entityIdOf_truthy email Hemail).
  - intros s. rewrite check_run. cbv zeta.
    destruct (userConnections w !! email) as [d|] eqn:Hd.
    + destruct (Hconns _ _ Hd) as (Hid & Hent & Hst).
      destruct (Hents _ _ Hent) as [_ Hemail].
      rewrite Hent, (entityIdOf_truthy email Hemail).
      destruct (getTools P (requests w) (entityIdOf email)) as [tools|t].
      * destruct (has_tools tools); intros [= <-]; by split.
      * destruct (error_message t); intros [= <-]; by split.
    + intros [= <-]. by split.
Qed.

(** After a setup on [fresh_platform] the record of [a@b.com] comes with
    its entity. *)
Lemma reachable_maps_agree_witness :
  userEntities pending_world !! js "a@b.com"
  = Some (entityIdOf (js "a@b.com")).
Proof.
  destruct (reachable_maps_agree fresh_platform pending_world (js "a@b.com"))
    as (_ & Hconn & _); [apply reachable_exec, reachable_init|].
  destruct (Hconn _ ltac:(vm_compute; reflexivity)) as (_ & _ & Hent & _).
  exact Hent.
Defined.

(** ** The chat and test routes *)

(** X16. [POST /api/ai/send-message] always answers, and calls the LLM at
    most twice.  A reply without [needsConnection] took exactly two calls,
    the first with the tools and the second without; it carries the text of
    the second output and the tool calls and tool results of the first.  A
    reply with [needsConnection] and a 400 answer took no call.  A 500
    answer took no call, or one when the first call threw, or two when the
    second threw. *)
Theorem send_message_llm_calls P message email w :
  let r := send_message P message email w in
  exists resp,
    r.1 = Returns resp /\
    match resp with
    | Success reply _ =>
        needsConnection reply = Some true /\ llmCalls r.2 = llmCalls w \/
        needsConnection reply = None /\
        llmCalls r.2 = (2 + llmCalls w)%nat /\
        exists output finalOutput,
          generateText P (llmCalls w) true = Returns output /\
          generateText P (S (llmCalls w)) false = Returns finalOutput /\
          Server.message reply = text finalOutput /\
          reply_toolCalls reply = Some (toolCalls output) /\
          reply_toolResults reply = Some (toolResults output)
    | Failure code _ _ =>
        code = 400 /\ llmCalls r.2 = llmCalls w \/
        code = 500 /\
        (llmCalls r.2 = llmCalls w \/
         llmCalls r.2 = (1 + llmCalls w)%nat /\
         (exists t, generateText P (llmCalls w) true = Throws t) \/
         llmCalls r.2 = (2 + llmCalls w)%nat /\
         (exists t, generateText P (S (llmCalls w)) false = Throws t))
    end.
Proof.
  cbv zeta. unfold send_message, try_catch.
  destruct (falsy_opt_string message);
    [by eexists; split; [done|left]|].
  destruct (falsy_opt_string email) eqn:He;
    [by eexists; split; [done|left]|].
  destruct email as [e|]; [|done].
  cbv beta iota zeta delta [default from_option id].
  rewrite run_bind.
  pose proof (ServerFacts.check_llm P e w) as Hllm.
  destruct (checkConnectionStatus P e w) as [[s|t] w1]; cbn [fst snd] in *;
    rewrite <- Hllm;
    [|by run_server; eexists; split; [done|right; split; [done|left]]].
  destruct (cs_status s); run_server;
    try (by eexists; split; [done|left]).
  destruct (userEntities w1 !! e) as [ent|]; simpl;
    [|by eexists; split; [done|right; split; [done|left]]].
  destruct (falsy_string ent); simpl;
    [by eexists; split; [done|right; split; [done|left]]|].
  destruct (getTools P (requests w1) ent); simpl;
    [|by eexists; split; [done|right; split; [done|left]]].
  destruct (generateText P (llmCalls w1) true) as [output|t] eqn:Hout;
    simpl.
  - destruct (generateText P (S (llmCalls w1)) false) as [final|t] eqn:Hfin;
      simpl.
    + eexists; split; [done|]. right. split; [done|]. split; [done|].
      by exists output, final.
    + eexists; split; [done|]. right. split; [done|]. right. right.
      split; [done|]. by exists t.
  - eexists; split; [done|]. right. split; [done|]. right. left.
    split; [done|]. by exists t.
Qed.

(** X17. [POST /api/composio/test-connection] with an email always
    answers and calls no LLM.  The test passes exactly when
    [checkConnectionStatus] returns [active]; the report then counts at
    least one tool (the fallback [|| 0] is never taken).  When the check
    returns another status the answer says "Connection test failed for
    <email>: <message of the status>" and carries the status.  When the
    check throws, which it does for a request for tools rejected with
    [null] or [undefined], the answer is the 500 of the route's [catch]
    with the message of the [TypeError]. *)
Theorem test_connection_passes_iff_active P email w :
  falsy_string email = false ->
  let r := test_connection P (Some email) w in
  llmCalls r.2 = llmCalls w /\
  (exists resp, r.1 = Returns resp) /\
  (forall s,
     (checkConnectionStatus P email w).1 = Returns s ->
     (cs_status s = active ->
      exists report stamp,
        r.1 = Returns (TestPassed report stamp) /\
        toolsAvailable s = Some (report_toolsAvailable report) /\
        (0 < report_toolsAvailable report)%nat /\
        report_connectionStatus report = active) /\
     (cs_status s <> active ->
      exists stamp,
        r.1 = Returns
                (TestFailed
                   (js "Connection test failed for " ++ email ++ js ": "
                    ++ default (js "undefined") (cs_message s))
                   email (userConnections w !! email) (cs_status s) stamp))) /\
  (forall t,
     (checkConnectionStatus P email w).1 = Throws t ->
     exists u stamp,
       t = cannot_read_message u /\
       r.1 = Returns (TestRejected 500 (thrown_text t) stamp)) /\
  (forall report stamp,
     r.1 = Returns (TestPassed report stamp) ->
     exists s, (checkConnectionStatus P email w).1 = Returns s /\
               cs_status s = active).
Proof.
  intros He. cbv zeta. rewrite (test_connection_run P email w He).
  rewrite check_run. cbv zeta.
  destruct (userConnections w !! email) as [d|] eqn:Hd.
  2: { cbn. split; [done|]. split; [by eexists|]. rewrite Hd.
       split; [|by split]. intros s [= <-]. split; [done|]. by eexists. }
  destruct (userEntities w !! email) as [e|].
  2: { cbn. split; [done|]. split; [by eexists|]. rewrite Hd.
       split; [|by split]. intros s [= <-]. split; [done|]. by eexists. }
  destruct (falsy_string e).
  { cbn. split; [done|]. split; [by eexists|]. rewrite Hd.
    split; [|by split]. intros s [= <-]. split; [done|]. by eexists. }
  destruct (getTools P (requests w) e) as [tools|t].
  - destruct (has_tools tools) eqn:Htools; cbn.
    + split; [done|]. split; [by eexists|]. split; [|split; [done|]].
      * intros s [= <-]. split; [|done]. intros _. do 2 eexists.
        split; [done|]. destruct tools as [[|tool tools]|]; try done.
        cbn. repeat split; lia.
      * intros report stamp _. by eexists.
    + split; [done|]. split; [by eexists|]. rewrite Hd.
      split; [|by split]. intros s [= <-]. split; [done|]. by eexists.
  - destruct t as [m| |u]; cbn.
    + split; [done|]. split; [by eexists|]. rewrite Hd.
      split; [|by split]. intros s [= <-]. split; [done|]. by eexists.
    + split; [done|]. split; [by eexists|]. rewrite Hd.
      split; [|by split]. intros s [= <-]. split; [done|]. by eexists.
    + split; [done|]. split; [by eexists|]. split; [done|]. split; [|done].
      intros t [= <-]. by exists u; eexists.
Qed.

(** [a@b.com] has a pending connection, and the platform rejects the
    request for its tools with [null]: the test is answered with 500. *)
Lemma test_connection_passes_iff_active_witness :
  exists stamp,
    (test_connection null_rejecting_platform (Some (js "a@b.com"))
       pending_world).1
    = Returns (TestRejected 500 (thrown_text (cannot_read_message false))
                 stamp).
Proof.
  destruct (test_connection_passes_iff_active null_rejecting_platform
              (js "a@b.com") pending_world)
    as (_ & _ & _ & Hthrows & _); [reflexivity|].
  destruct (Hthrows (cannot_read_message false)) as (u & stamp & _ & Hr);
    [vm_compute; reflexivity|].
  by exists stamp.
Defined.

(** X21. A user whose connection is pending is handed the authentication
    link again when chatting: if the email has a connection record and an
    entity, and the platform binds no tools for the entity, the chat
    endpoint answers with the pending text, [needsConnection] set and the
    redirect URL stored in the record, and leaves the record as it is. *)
Theorem pending_chat_repeats_redirect P message email w d e tools :
  falsy_opt_string message = false ->
  falsy_string email = false ->
  userConnections w !! email = Some d ->
  userEntities w !! email = Some e ->
  falsy_string e = false ->
  getTools P (requests w) e = Returns tools ->
  has_tools tools = false ->
  (send_message P message (Some email) w).1
  = Returns (Success (mkReply pending_text (Some true) (redirectUrl d) None
                              None email)
                     (toISOString P (clock P (ticks w)))) /\
  userConnections (send_message P message (Some email) w).2
  = userConnections w.
Proof.
  intros Hm He Hd Hent Hf Htools Hnone.
  unfold send_message, try_catch. rewrite Hm.
  cbn [falsy_opt_string]. rewrite He.
  cbv beta iota zeta delta [default from_option id].
  rewrite run_bind, check_run. cbv zeta.
  rewrite Hd, Hent, Hf, Htools, Hnone.
  run_server. by rewrite Hd.
Qed.

Lemma pending_chat_repeats_redirect_witness :
  (send_message fresh_platform (Some (js "book lunch"))
     (Some (js "a@b.com")) pending_world).1
  = Returns (Success
               (mkReply pending_text (Some true)
                  (Some (js "https://auth.example/a_b_com")) None None
                  (js "a@b.com"))
               (js "2")).
Proof.
  destruct (pending_chat_repeats_redirect fresh_platform
              (Some (js "book lunch")) (js "a@b.com") pending_world
              (mkConnectionData (js "a_b_com") (js "ca_a_b_com")
                 (Some (js "https://auth.example/a_b_com")) pending None
                 (Some (js "0")))
              (js "a_b_com") (Some []))
    as [Hreply _];
    [reflexivity|reflexivity|vm_compute; reflexivity|vm_compute; reflexivity
    |reflexivity|reflexivity|reflexivity|exact Hreply].
Defined.

End RoutesFacts.

(** * Further properties of the OAuth callback page *)

Module CallbackFacts.
Import OAuthCallback OAuthFacts.

(** X18. [handleOAuthCallback] on a page just mounted never throws and
    never leaves the page in [processing]: every state it shows before the
    last is [processing], the last is [success] or [error], and exactly one
    chat message is dispatched.  It ends in [success], with the redirect
    after 2 seconds and nothing logged at the error level, exactly when
    [handleCallback] returns a code and state and the token exchange
    returns.  Otherwise it ends in [error] with the redirect after 5
    seconds, and the details shown are the message of the error thrown:
    "Failed to process OAuth callback" when [handleCallback] returns
    [null]. *)
Theorem callback_ends_in_success_or_error S url email :
  let r := handleOAuthCallback S url email init in
  let page := r.2 in
  let exchanged :=
    exists code state tokens,
      handleCallback S url = Returns (Some (code, state)) /\
      exchangeCodeForTokens S code state = Returns tokens in
  r.1 = Returns tt /\
  length (chat page) = 1%nat /\
  (exists before final,
     shown page = before ++ [final] /\
     Forall (fun s => status s = processing) before /\
     (status final = success /\ redirectAfter page = Some 2000 /\
      Forall (fun l => l.1 <> error_level) (console page) /\ exchanged
      \/
      status final = error /\ redirectAfter page = Some 5000 /\
      ~ exchanged /\
      (handleCallback S url = Returns None ->
       details final = Some (js "Failed to process OAuth callback")) /\
      (forall m, handleCallback S url = Throws (JsError m) ->
                 details final = Some m) /\
      (forall code state m,
         handleCallback S url = Returns (Some (code, state)) ->
         exchangeCodeForTokens S code state = Throws (JsError m) ->
         details final = Some m))).
Proof.
  cbv zeta. run_page.
  destruct (handleCallback S url) as [[[code state]|]|t] eqn:Hurl; simpl.
  - destruct (exchangeCodeForTokens S code state) as [tokens|t] eqn:Hex;
      simpl.
    + assert (Hyes : exists c s k,
                Returns (Some (code, state)) = Returns (Some (c, s)) /\
                exchangeCodeForTokens S c s = Returns k)
        by (by exists code, state, tokens).
      destruct (falsy_opt_string email); simpl;
        [|destruct (connectToServerIntegration S (default [] email)); simpl];
        (split; [done|]); (split; [done|]);
        eexists [_; _; _; _], _; (split; [reflexivity|]);
        (split; [by repeat constructor|]); left;
        (split; [done|]); (split; [done|]);
        (split; [by repeat constructor|]); exact Hyes.
    + split; [done|]. split; [done|].
      eexists [_; _; _], _. split; [reflexivity|].
      split; [by repeat constructor|]. right.
      split; [done|]. split; [done|]. split.
      * intros (c & s & k & [= <- <-] & Hk). by rewrite Hex in Hk.
      * split; [done|]. split; [done|].
        intros c s m [= <- <-] Hthrow. rewrite Hex in Hthrow.
        by inversion Hthrow.
  - split; [done|]. split; [done|].
    eexists [_; _], _. split; [reflexivity|].
    split; [by repeat constructor|]. right.
    split; [done|]. split; [done|]. split.
    + by intros (c & s & k & [=] & _).
    + by repeat split.
  - split; [done|]. split; [done|].
    eexists [_; _], _. split; [reflexivity|].
    split; [by repeat constructor|]. right.
    split; [done|]. split; [done|]. split.
    + by intros (c & s & k & [=] & _).
    + split; [done|]. split; [|done]. by intros m [= ->].
Qed.

(** X19. What the server integration answers never shows on the page: for
    two sets of services that differ in [connectToServerIntegration] only,
    the handler shows the same states, dispatches the same chat message and
    schedules the same redirect; the console alone can differ.  Without an
    email of the signed-in user (absent or empty) the console is the same
    as well. *)
Theorem bridge_never_shows S bridge url email :
  let S' := mkServices (clock S) (toISOString S) (handleCallback S)
                       (exchangeCodeForTokens S) bridge in
  let page := (handleOAuthCallback S url email init).2 in
  let page' := (handleOAuthCallback S' url email init).2 in
  shown page' = shown page /\
  chat page' = chat page /\
  redirectAfter page' = redirectAfter page /\
  (falsy_opt_string email = true -> page' = page).
Proof.
  cbv zeta. run_page.
  destruct (handleCallback S url) as [[[code state]|]|t]; simpl; [|done..].
  destruct (exchangeCodeForTokens S code state) as [tokens|t]; simpl;
    [|done].
  destruct (falsy_opt_string email); simpl; [done|].
  destruct (connectToServerIntegration S (default [] email)),
    (bridge (default [] email)); simpl; by repeat split.
Qed.

End CallbackFacts.
